(** * Driver Rating Dashboard (app.py): the table pipeline

    A shallow embedding of [app.py]: the loader ([load_data]), the sidebar
    filter ([filtered_df]), the two group-by-date aggregations, the three
    KPIs and the sequence of twenty panels.

    The script is a sequence of calls into a dataframe library.  The part
    of that library the script relies on is written out below, operation
    by operation, under the names the script uses.

    Conventions.
    - A cell is a number, a text, a timestamp or a missing value.  A
      number is held as the rational it denotes; every finite binary64
      value is one, so comparisons are exact.
    - Sums and quotients are those of binary64 arithmetic: the exact
      result rounded to the nearest binary64 value, ties to even
      ([round64]), taken in the order in which the libraries add: pairwise
      in [Series.mean], with a running compensation in
      [groupby(...).mean].  Infinities are not represented; the
      statements about means are made where no sum reaches the largest
      binary64 value.
    - A frame is a list of column labels and a list of labelled rows, as
      the script sees it: columns are reached by label, rows keep their
      index label through boolean indexing.  A frame does not record the
      type of a column; a column that holds only numbers and missing
      values is a float column, as the reader makes it.
    - A raised exception is a value [Raise e]; the script never catches
      one, so the first one ends the run.  [Unsupported] is no exception
      of the script: it marks a result that has no representation here (a
      mean of timestamps).
    - The libraries are taken as they are in pandas 2 (from 2.1 on) with
      numpy: means that skip missing values, group keys sorted, sums
      pairwise in the array library and compensated in the group-by
      kernel, a text among the values of a mean raising [TypeError]. *)

From Stdlib Require Import List String Ascii ZArith QArith Qabs Qround Qpower.
From Stdlib Require Import Bool Arith Lia Lqa.
From Stdlib Require Import Sorting.Sorted Sorting.Permutation.
Import ListNotations.

Local Open Scope string_scope.
Local Open Scope list_scope.

(** ** Exceptions and the error monad *)

Inductive error : Type :=
| FileNotFoundError
| ValueError
| KeyError (key : string)
| TypeError
| Unsupported.

Inductive result (A : Type) : Type :=
| Ok (a : A)
| Raise (e : error).

Arguments Ok {A} a.
Arguments Raise {A} e.

Definition bind {A B : Type} (m : result A) (k : A -> result B) : result B :=
  match m with
  | Ok a => k a
  | Raise e => Raise e
  end.

Notation "x <- m ;; k" := (bind m (fun x => k))
  (at level 61, m at next level, right associativity).

Fixpoint mapM {A B : Type} (f : A -> result B) (l : list A) : result (list B) :=
  match l with
  | [] => Ok []
  | a :: l' =>
      b <- f a ;;
      bs <- mapM f l' ;;
      Ok (b :: bs)
  end.

(** ** Cells, rows, frames *)

Inductive cell : Type :=
| Num (q : Q)
| Str (s : string)
| Date (t : Z)
| NaN.

Record row : Type := mkRow { label : nat; cells : list cell }.

Record DataFrame : Type := mkFrame { columns : list string; rows : list row }.

(** A column taken out of a frame: its cells, in row order. *)
Definition Series : Type := list cell.

(** Equality of cells as the hash tables behind [isin], [unique] and
    [groupby] see it: numbers by value, a missing value equal to a missing
    value. *)
Definition cell_eqb (a b : cell) : bool :=
  match a, b with
  | Num p, Num q => Qeq_bool p q
  | Str s, Str t => String.eqb s t
  | Date s, Date t => Z.eqb s t
  | NaN, NaN => true
  | _, _ => false
  end.

Definition isna (c : cell) : bool :=
  match c with NaN => true | _ => false end.

(** [Index.get_loc]: position of a label among the columns. *)
Fixpoint get_loc (name : string) (cols : list string) : option nat :=
  match cols with
  | [] => None
  | c :: cs => if String.eqb c name then Some 0%nat
               else option_map S (get_loc name cs)
  end.

(** The kinds of cells a numeric column and a column of timestamps are
    made of. *)
Definition numeric (c : cell) : bool :=
  match c with Num _ | NaN => true | Str _ | Date _ => false end.

Definition datetime (c : cell) : bool :=
  match c with Date _ | NaN => true | Num _ | Str _ => false end.

Definition is_str (c : cell) : bool :=
  match c with Str _ => true | _ => false end.

(** The number in a cell, if it holds one. *)
Definition present (c : cell) : option Q :=
  match c with Num q => Some q | _ => None end.

(** The cell of a row at a column position.  Every row of a frame has a
    cell under every column; the default is for positions past the last
    column, which the script never asks for. *)
Definition iat (j : nat) (r : row) : cell := nth j (cells r) NaN.

(** [df[name]] *)
Definition getitem (df : DataFrame) (name : string) : result Series :=
  match get_loc name (columns df) with
  | None => Raise (KeyError name)
  | Some j => Ok (map (iat j) (rows df))
  end.

(** [series >= x] and [series <= x] with a float [x]: a number is compared,
    a missing value compares false, a text or a timestamp raises. *)
Definition compare_scalar (op : Q -> bool) (c : cell) : result bool :=
  match c with
  | Num q => Ok (op q)
  | NaN => Ok false
  | Str _ | Date _ => Raise TypeError
  end.

Definition Series_ge (s : Series) (x : Q) : result (list bool) :=
  mapM (compare_scalar (fun q => Qle_bool x q)) s.

Definition Series_le (s : Series) (x : Q) : result (list bool) :=
  mapM (compare_scalar (fun q => Qle_bool q x)) s.

(** [series.isin(values)] *)
Definition cell_in (values : list cell) (c : cell) : bool :=
  existsb (cell_eqb c) values.

Definition isin (s : Series) (values : list cell) : list bool :=
  map (cell_in values) s.

(** [m1 & m2] on boolean series of one frame. *)
Fixpoint mask_and (m1 m2 : list bool) : list bool :=
  match m1, m2 with
  | a :: m1', b :: m2' => (a && b) :: mask_and m1' m2'
  | _, _ => []
  end.

(** [df[mask]]: the rows whose mask entry is true, labels and cells as
    they were, in their order.  The masks of the script are computed from
    the frame they index, so they have its length. *)
Fixpoint select (rs : list row) (m : list bool) : list row :=
  match rs, m with
  | r :: rs', b :: m' => if b then r :: select rs' m' else select rs' m'
  | _, _ => []
  end.

Definition getitem_mask (df : DataFrame) (m : list bool) : DataFrame :=
  mkFrame (columns df) (select (rows df) m).

(** [df.iloc[:, :n]]: a slice never raises, it stops at the last column. *)
Definition iloc_cols (df : DataFrame) (n : nat) : DataFrame :=
  mkFrame (firstn n (columns df))
          (map (fun r => mkRow (label r) (firstn n (cells r))) (rows df)).

(** [series.unique()]: distinct values in order of first appearance. *)
Fixpoint unique (s : Series) : list cell :=
  match s with
  | [] => []
  | c :: s' => c :: filter (fun d => negb (cell_eqb d c)) (unique s')
  end.

(** ** The Data Loader *)

(** The content of a worksheet as the reader hands it over, that is after
    its parsing: the column labels it has settled on (a repeated label
    renamed, so that labels are distinct), and the body rows, each with one
    cell under every label (a short row filled up with missing values) and
    with the missing-value texts already turned into missing values.  What
    is left to [read_excel] below is to find the sheet and to index the
    rows.  A workbook is its named sheets; the file system maps a path to
    the workbook stored there, if any. *)
Record sheet : Type := mkSheet { header : list string; body : list (list cell) }.

Definition workbook : Type := list (string * sheet).

Definition filesystem : Type := string -> option workbook.

Fixpoint find_sheet (name : string) (wb : workbook) : option sheet :=
  match wb with
  | [] => None
  | (n, sh) :: wb' => if String.eqb n name then Some sh else find_sheet name wb'
  end.

(** The texts the reader takes for a missing value. *)
Definition na_values : list string :=
  ["#N/A"; "#N/A N/A"; "#NA"; "-1.#IND"; "-1.#QNAN"; "-NaN"; "-nan"; "1.#IND";
   "1.#QNAN"; "<NA>"; "N/A"; "NA"; "NULL"; "NaN"; "None"; "n/a"; "nan"; "null";
   EmptyString].

Definition na_text (c : cell) : bool :=
  match c with
  | Str s => existsb (String.eqb s) na_values
  | _ => false
  end.

(** What parsing guarantees of the content of a sheet. *)
Definition parsed (sh : sheet) : Prop :=
  NoDup (header sh) /\
  Forall (fun cs => List.length cs = List.length (header sh)) (body sh) /\
  Forall (Forall (fun c => na_text c = false)) (body sh).

(** Rows get the labels 0, 1, 2, ... of a range index. *)
Fixpoint range_rows (start : nat) (b : list (list cell)) : list row :=
  match b with
  | [] => []
  | cs :: b' => mkRow start cs :: range_rows (S start) b'
  end.

(** [pd.read_excel(path, sheet_name=name)]: no file at the path, no sheet
    of that name in the workbook, or the frame of the parsed sheet. *)
Definition read_excel (fs : filesystem) (path name : string) : result DataFrame :=
  match fs path with
  | None => Raise FileNotFoundError
  | Some wb =>
      match find_sheet name wb with
      | None => Raise ValueError
      | Some sh => Ok (mkFrame (header sh) (range_rows 0 (body sh)))
      end
  end.

Definition data_path : string := "GJ25NS018 Karan Sen data analytics.xlsx".

Definition load_data (fs : filesystem) : result DataFrame :=
  df <- read_excel fs data_path "Sheet1" ;;
  Ok (iloc_cols df 8).

(** ** The Filter Controller *)

(** What the three sidebar widgets return. *)
Record selection : Type := mkSelection {
  min_rating : Q;
  max_rating : Q;
  customer_type : list cell;
  payment_method : list cell
}.

(** The state of the widgets before the user touches them: the full
    slider range and every option of both multiselects. *)
Definition default_selection (df : DataFrame) : result selection :=
  ct <- getitem df "Customer Type" ;;
  pm <- getitem df "Payment Method" ;;
  Ok (mkSelection 1 5 (unique ct) (unique pm)).

(** Lines 23-28. *)
Definition filtered_df (df : DataFrame) (sel : selection) : result DataFrame :=
  r1 <- getitem df "Driver Rating" ;;
  m1 <- Series_ge r1 (min_rating sel) ;;
  r2 <- getitem df "Driver Rating" ;;
  m2 <- Series_le r2 (max_rating sel) ;;
  ct <- getitem df "Customer Type" ;;
  pm <- getitem df "Payment Method" ;;
  Ok (getitem_mask df
        (mask_and (mask_and (mask_and m1 m2) (isin ct (customer_type sel)))
                  (isin pm (payment_method sel)))).

(** ** Binary64 arithmetic *)

Section Binary64.

Local Open Scope Q_scope.

Definition pow2 (e : Z) : Q := 2 ^ e.

(** The position of the leading bit of a rational other than zero: the
    [e] with [2^e <= |q| < 2^(e+1)]. *)
Definition ilog2 (q : Q) : Z :=
  let d := (Z.log2 (Z.abs (Qnum q)) - Z.log2 (Zpos (Qden q)))%Z in
  if Qle_bool (pow2 d) (Qabs q) then d else (d - 1)%Z.

(** The nearest integer, a tie going to the even one. *)
Definition rne (x : Q) : Z :=
  let f := Qfloor x in
  match Qcompare (x - inject_Z f) (1 # 2) with
  | Lt => f
  | Gt => (f + 1)%Z
  | Eq => if Z.even f then f else (f + 1)%Z
  end.

(** The binary64 value nearest to a rational: 53 significant bits, the
    last one worth at least [2^-1074], ties to even.  The result is in
    lowest terms. *)
Definition round64 (x : Q) : Q :=
  let q := Qred x in
  if Qeq_bool q 0 then 0
  else
    let e := Z.max (-1074) (ilog2 q - 52) in
    Qred (inject_Z (rne (q / pow2 e)) * pow2 e).

Definition fadd (x y : Q) : Q := round64 (x + y).
Definition fsub (x y : Q) : Q := round64 (x - y).
Definition fdiv (x y : Q) : Q := round64 (x / y).

(** [res += a[i]] over the elements in order. *)
Fixpoint accumulate (res : Q) (l : list Q) : Q :=
  match l with
  | [] => res
  | x :: l' => accumulate (fadd res x) l'
  end.

(** The eight accumulators [r[0..7]], each taking its element of the next
    block of eight. *)
Fixpoint add_block (r b : list Q) : list Q :=
  match r, b with
  | x :: r', y :: b' => fadd x y :: add_block r' b'
  | _, _ => []
  end.

Fixpoint unrolled_loop (k : nat) (r l : list Q) : list Q * list Q :=
  match k with
  | O => (r, l)
  | S k' => unrolled_loop k' (add_block r (firstn 8 l)) (skipn 8 l)
  end.

Definition combine8 (r : list Q) : Q :=
  match r with
  | [r0; r1; r2; r3; r4; r5; r6; r7] =>
      fadd (fadd (fadd r0 r1) (fadd r2 r3)) (fadd (fadd r4 r5) (fadd r6 r7))
  | _ => 0
  end.

(** A block of 8 to 128 elements: eight accumulators over the whole
    blocks of eight, added up in pairs, then the remaining elements. *)
Definition block_sum (l : list Q) : Q :=
  let (r, tail) := unrolled_loop (List.length l / 8 - 1) (firstn 8 l) (skipn 8 l) in
  accumulate (combine8 r) tail.

(** The pairwise summation of the array library: fewer than 8 elements
    are added in order, up to 128 as a block, more are split in two
    halves, the first a multiple of eight long.  [fuel] bounds the depth
    of the splitting; the length of the list is more than enough. *)
Fixpoint pairwise_sum (fuel : nat) (l : list Q) : Q :=
  let n := List.length l in
  if (n <? 8)%nat then accumulate 0 l
  else if (n <=? 128)%nat then block_sum l
  else
    match fuel with
    | O => 0
    | S fuel' =>
        let n2 := (n / 2 - (n / 2) mod 8)%nat in
        fadd (pairwise_sum fuel' (firstn n2 l)) (pairwise_sum fuel' (skipn n2 l))
    end.

(** [values.sum()] of a float array. *)
Definition np_sum (l : list Q) : Q := pairwise_sum (List.length l) l.

(** One step of the compensated summation of the group-by kernel:
    [y = val - c; t = sum + y; c = (t - sum) - y; sum = t]. *)
Definition kahan_step (st : Q * Q) (val : Q) : Q * Q :=
  let (sumx, comp) := st in
  let y := fsub val comp in
  let t := fadd sumx y in
  (t, fsub (fsub t sumx) y).

Definition kahan_sum (l : list Q) : Q := fst (fold_left kahan_step l (0, 0)).

End Binary64.

(** ** Means *)

Definition notna (v : option Q) : bool :=
  match v with Some _ => true | None => false end.

Definition count (vs : list (option Q)) : nat := List.length (filter notna vs).

(** The count as the float the sum is divided by. *)
Definition float_of_nat (n : nat) : Q := round64 (inject_Z (Z.of_nat n)).

(** The array a reduction works on: the numbers converted to binary64
    (the value itself in a float column), a missing value replaced by
    zero. *)
Definition fill (v : option Q) : Q :=
  match v with Some q => round64 q | None => 0%Q end.

(** [nanops.nanmean], the mean with [skipna=True]: the pairwise sum of
    the filled array over the number of values that are present, and
    not-a-number when there is none. *)
Definition nanmean (vs : list (option Q)) : cell :=
  match count vs with
  | O => NaN
  | S _ => Num (fdiv (np_sum (map fill vs)) (float_of_nat (count vs)))
  end.

(** [series.mean()].  A column of numbers and missing values is a float
    column.  A column that holds a text, or a timestamp beside a number,
    is a column of objects, whose sum raises.  A column of timestamps is
    averaged by the library to a timestamp; that average is not
    represented. *)
Definition Series_mean (s : Series) : result cell :=
  if forallb numeric s then Ok (nanmean (map present s))
  else if forallb datetime s then Raise Unsupported
  else Raise TypeError.

(** ** Group by a key column, mean of a value column *)

Definition dropna (s : Series) : Series := filter (fun c => negb (isna c)) s.

Definition same_kind (a b : cell) : bool :=
  match a, b with
  | Num _, Num _ | Str _, Str _ | Date _, Date _ | NaN, NaN => true
  | _, _ => false
  end.

(** The order of group keys of one kind: numbers by value, timestamps by
    time, texts by code point. *)
Definition cell_leb (a b : cell) : bool :=
  match a, b with
  | Num p, Num q => Qle_bool p q
  | Str s, Str t => String.leb s t
  | Date s, Date t => Z.leb s t
  | _, _ => false
  end.

Fixpoint insert_key (k : cell) (l : list cell) : list cell :=
  match l with
  | [] => [k]
  | x :: l' => if cell_leb k x then k :: l else x :: insert_key k l'
  end.

Definition sort_keys (l : list cell) : list cell := fold_right insert_key [] l.

Definition homogeneous (l : list cell) : bool :=
  match l with
  | [] => true
  | k :: l' => forallb (same_kind k) l'
  end.

(** The keys of [groupby(key)] with its defaults [sort=True] and
    [dropna=True]: the distinct present values of the key column, sorted.
    Keys of one kind are sorted by their order.  Among keys of mixed
    kinds the texts are sorted apart and put last; what is left has to be
    of one kind to be sorted, numbers and timestamps do not compare. *)
Definition group_keys (ks : Series) : result (list cell) :=
  let u := unique (dropna ks) in
  if homogeneous u then Ok (sort_keys u)
  else
    let others := filter (fun c => negb (is_str c)) u in
    if homogeneous others then Ok (sort_keys others ++ sort_keys (filter is_str u))
    else Raise TypeError.

(** The values of the rows whose key is [k]. *)
Definition group_values {A : Type} (ks : Series) (vs : list A) (k : cell) : list A :=
  map snd (filter (fun kv => cell_eqb (fst kv) k) (combine ks vs)).

(** The numbers of a column, missing values left out. *)
Fixpoint numbers (s : Series) : list Q :=
  match s with
  | [] => []
  | Num q :: s' => q :: numbers s'
  | _ :: s' => numbers s'
  end.

(** The mean of one group of a float column: the compensated sum of the
    numbers of the group over their count, not-a-number when the group has
    no number. *)
Definition group_mean (vs : Series) : cell :=
  match numbers vs with
  | [] => NaN
  | qs => Num (fdiv (kahan_sum (map round64 qs)) (float_of_nat (List.length qs)))
  end.

(** A number as an object of the interpreter: a whole number is an
    integer, added to an integer exactly; any other number is a float, and
    a sum with a float is a float. *)
Definition whole (q : Q) : bool := Qeq_bool (inject_Z (Qfloor q)) q.

Definition py_number (v : option Q) : Q * bool :=
  match v with
  | Some q => if whole q then (q, true) else (round64 q, false)
  | None => (0%Q, true)
  end.

Definition py_float (a : Q * bool) : Q :=
  if snd a then round64 (fst a) else fst a.

Definition py_add (a b : Q * bool) : Q * bool :=
  if snd a && snd b then (Qred (fst a + fst b), true)
  else (fadd (py_float a) (py_float b), false).

(** The mean of one group of a column of objects, taken group by group:
    a text or a timestamp in the group raises; the numbers are added in
    row order, a missing value as zero, and the sum is divided by the
    count of the numbers. *)
Definition object_mean (vs : Series) : result cell :=
  if forallb numeric vs then
    match map py_number (map present vs), numbers vs with
    | o :: os, _ :: _ =>
        Ok (Num (fdiv (py_float (fold_left py_add os o))
                      (float_of_nat (List.length (numbers vs)))))
    | _, _ => Ok NaN
    end
  else Raise TypeError.

(** The means of the groups, in the order of the keys.  Only the rows
    that have a key are in a group.  A float column goes through the
    group-by kernel; a column of timestamps has means that are not
    represented; any other column is averaged group by group as
    objects. *)
Definition group_means (ks vs : Series) (keys : list cell) : result (list (list cell)) :=
  if forallb numeric vs then
    Ok (map (fun k => [k; group_mean (group_values ks vs k)]) keys)
  else if forallb datetime vs then Raise Unsupported
  else mapM (fun k => m <- object_mean (group_values ks vs k) ;; Ok [k; m]) keys.

(** [df.groupby(key)[col].mean().reset_index()] *)
Definition groupby_mean (df : DataFrame) (key col : string) : result DataFrame :=
  ks <- getitem df key ;;
  vs <- getitem df col ;;
  keys <- group_keys ks ;;
  means <- group_means ks vs keys ;;
  if String.eqb key col then Raise ValueError
  else Ok (mkFrame [key; col] (range_rows 0 means)).

(** Lines 101 and 106. *)
Definition df_daily (fv : DataFrame) : result DataFrame :=
  groupby_mean fv "Date" "Driver Rating".

Definition df_time (fv : DataFrame) : result DataFrame :=
  groupby_mean fv "Date" "Delivery Time(Minutes)".

(** Lines 126-128. *)
Definition avg_rating (fv : DataFrame) : result cell :=
  s <- getitem fv "Driver Rating" ;; Series_mean s.

Definition avg_time (fv : DataFrame) : result cell :=
  s <- getitem fv "Delivery Time(Minutes)" ;; Series_mean s.

Definition avg_value (fv : DataFrame) : result cell :=
  s <- getitem fv "Order Value" ;; Series_mean s.

(** ** Figures and page elements *)

Inductive chart_kind : Type := histogram | box | scatter | line.

(** A figure holds the columns it draws, copied out of the frame it was
    built from, and the style arguments of the call. *)
Record figure : Type := mkFigure {
  chart : chart_kind;
  fig_x : option Series;
  fig_y : option Series;
  fig_color : option Series;
  nbins : option nat;
  color_discrete_sequence : list string
}.

(** A column argument of a chart constructor: a label that is not a
    column of the frame is refused with a [ValueError]. *)
Definition px_column (df : DataFrame) (arg : option string) : result (option Series) :=
  match arg with
  | None => Ok None
  | Some name =>
      match get_loc name (columns df) with
      | None => Raise ValueError
      | Some j => Ok (Some (map (iat j) (rows df)))
      end
  end.

Definition px (k : chart_kind) (df : DataFrame) (x y color : option string)
    (bins : option nat) (cds : list string) : result figure :=
  xs <- px_column df x ;;
  ys <- px_column df y ;;
  cs <- px_column df color ;;
  Ok (mkFigure k xs ys cs bins cds).

(** What a panel puts on the page.  A metric carries the number that the
    script prints with two decimals.  The page title, the introduction,
    the tab bar and the footer hold no data and are left out. *)
Inductive element : Type :=
| subheader (text : string)
| markdown (text : string)
| plotly_chart (fig : figure)
| pyplot (heatmap : DataFrame)
| dataframe (data : DataFrame)
| metric (name : string) (value : cell).

(** [sns.heatmap(data, ...)]: the colour range is the minimum and the
    maximum of the data, and there is none of a table without columns. *)
Definition heatmap (data : DataFrame) : result DataFrame :=
  match columns data with
  | [] => Raise ValueError
  | _ :: _ => Ok data
  end.

(** ** The Panel Renderer *)

(** The state a panel runs in: the object bound to [filtered_df] and the
    page built so far.  A panel is a state transformer that may raise. *)
Record session : Type := mkSession { st_filtered_df : DataFrame; st_page : list element }.

Definition St (A : Type) : Type := session -> result A * session.

Definition st_ret {A : Type} (a : A) : St A := fun s => (Ok a, s).

Definition st_bind {A B : Type} (m : St A) (k : A -> St B) : St B :=
  fun s => match m s with
           | (Ok a, s') => k a s'
           | (Raise e, s') => (Raise e, s')
           end.

Notation "x <~ m ;; k" := (st_bind m (fun x => k))
  (at level 61, m at next level, right associativity).
Notation "m >> k" := (st_bind m (fun _ => k))
  (at level 61, right associativity).

(** Reading the variable [filtered_df]. *)
Definition read : St DataFrame := fun s => (Ok (st_filtered_df s), s).

(** The value or the exception of a library call. *)
Definition lift {A : Type} (r : result A) : St A := fun s => (r, s).

Definition st_write (e : element) : St unit :=
  fun s => (Ok tt, mkSession (st_filtered_df s) (st_page s ++ [e])).

Fixpoint sequence (ps : list (St unit)) : St unit :=
  match ps with
  | [] => st_ret tt
  | p :: ps' => p >> sequence ps'
  end.

Section Panels.

(** Three operations of the dataframe library whose results involve
    square roots (correlation, standard deviation) or the declared type
    of a column; the script only passes their results on. *)
Variable select_dtypes_number : DataFrame -> DataFrame.
Variable corr : DataFrame -> DataFrame.
Variable describe : DataFrame -> result DataFrame.

Definition chart_panel (title : string) (note : option string)
    (k : chart_kind) (x y color : option string)
    (bins : option nat) (cds : list string) : St unit :=
  st_write (subheader title) >>
  match note with Some t => st_write (markdown t) | None => st_ret tt end >>
  df <~ read ;;
  fig <~ lift (px k df x y color bins cds) ;;
  st_write (plotly_chart fig).

(** Panels 4, 5, 6, 9 and 12 build the figure before they write their
    note. *)
Definition chart_panel_late_note (title note : string)
    (k : chart_kind) (x y color : option string) : St unit :=
  st_write (subheader title) >>
  df <~ read ;;
  fig <~ lift (px k df x y color None []) ;;
  st_write (markdown note) >>
  st_write (plotly_chart fig).

Definition panel1 : St unit :=
  chart_panel "1. Overall Driver Rating Distribution"
    (Some "Shows the count of deliveries by driver ratings.")
    histogram (Some "Driver Rating") None None (Some 10%nat) ["#4CAF50"].

Definition panel2 : St unit :=
  chart_panel "2. Average Order Value by Driver Rating"
    (Some "Analyzes whether higher-rated drivers get more valuable orders.")
    box (Some "Driver Rating") (Some "Order Value") (Some "Driver Rating") None [].

Definition panel3 : St unit :=
  chart_panel "3. Average Delivery Time by Driver Rating"
    (Some "Checks if better-rated drivers deliver faster.")
    box (Some "Driver Rating") (Some "Delivery Time(Minutes)") (Some "Driver Rating") None [].

Definition panel4 : St unit :=
  chart_panel_late_note "4. Order Value by Customer Type"
    "Compares order value patterns between new and repeat customers."
    box (Some "Customer Type") (Some "Order Value") (Some "Customer Type").

Definition panel5 : St unit :=
  chart_panel_late_note "5. Payment Method Distribution"
    "Shows preferred payment modes."
    histogram (Some "Payment Method") None (Some "Payment Method").

Definition panel6 : St unit :=
  chart_panel_late_note "6. Driver Rating by Customer Type"
    "Do new customers rate differently than repeat ones?"
    box (Some "Customer Type") (Some "Driver Rating") (Some "Customer Type").

Definition panel7 : St unit :=
  chart_panel "7. Delivery Time by Payment Method" None
    box (Some "Payment Method") (Some "Delivery Time(Minutes)") (Some "Payment Method") None [].

Definition panel8 : St unit :=
  st_write (subheader "8. Correlation Heatmap") >>
  st_write (markdown "Shows correlations between numeric variables.") >>
  df <~ read ;;
  fig <~ lift (heatmap (corr (select_dtypes_number df))) ;;
  st_write (pyplot fig).

Definition panel9 : St unit :=
  chart_panel_late_note "9. Driver Rating vs Delivery Time"
    "Check relationship between rating and delivery time."
    scatter (Some "Driver Rating") (Some "Delivery Time(Minutes)") (Some "Driver Rating").

Definition panel10 : St unit :=
  chart_panel "10. Driver Rating vs Distance" None
    scatter (Some "Driver Rating") (Some "Delivery Distance (KM)") (Some "Driver Rating") None [].

Definition panel11 : St unit :=
  chart_panel "11. Driver Rating vs Order Value" None
    scatter (Some "Driver Rating") (Some "Order Value") (Some "Driver Rating") None [].

Definition panel12 : St unit :=
  chart_panel_late_note "12. Orders Over Time"
    "Tracks order volume and driver ratings over time."
    histogram (Some "Date") None (Some "Driver Rating").

Definition panel13 : St unit :=
  st_write (subheader "13. Average Rating by Date") >>
  st_write (markdown "Shows how ratings trend over time.") >>
  df <~ read ;;
  daily <~ lift (df_daily df) ;;
  fig <~ lift (px line daily (Some "Date") (Some "Driver Rating") None None []) ;;
  st_write (plotly_chart fig).

Definition panel14 : St unit :=
  st_write (subheader "14. Average Delivery Time by Date") >>
  df <~ read ;;
  time <~ lift (df_time df) ;;
  fig <~ lift (px line time (Some "Date") (Some "Delivery Time(Minutes)") None None []) ;;
  st_write (plotly_chart fig).

Definition panel15 : St unit :=
  chart_panel "15. Outlier Detection: Order Value" None
    box None (Some "Order Value") None None ["#E91E63"].

Definition panel16 : St unit :=
  chart_panel "16. Outlier Detection: Delivery Time" None
    box None (Some "Delivery Time(Minutes)") None None ["#9C27B0"].

Definition panel17 : St unit :=
  st_write (subheader "17. Summary Table") >>
  df <~ read ;;
  summary <~ lift (describe df) ;;
  st_write (dataframe summary).

Definition panel18 : St unit :=
  st_write (subheader "18. Raw Data Table") >>
  df <~ read ;;
  st_write (dataframe df).

Definition panel19 : St unit :=
  st_write (subheader "19. KPI Summary") >>
  df <~ read ;;
  rating <~ lift (avg_rating df) ;;
  df <~ read ;;
  time <~ lift (avg_time df) ;;
  df <~ read ;;
  value <~ lift (avg_value df) ;;
  st_write (metric "Avg. Driver Rating" rating) >>
  st_write (metric "Avg. Delivery Time (min)" time) >>
  st_write (metric "Avg. Order Value (AED)" value).

Definition panel20 : St unit :=
  chart_panel "20. Delivery Distance Boxplot" None
    box None (Some "Delivery Distance (KM)") None None ["#03A9F4"].

Definition tab1 : list (St unit) := [panel1; panel2; panel3].
Definition tab2 : list (St unit) := [panel4; panel5; panel6; panel7].
Definition tab3 : list (St unit) := [panel8; panel9; panel10; panel11].
Definition tab4 : list (St unit) := [panel12; panel13; panel14].
Definition tab5 : list (St unit) := [panel15; panel16; panel17; panel18; panel19; panel20].

Definition panels : list (St unit) := tab1 ++ tab2 ++ tab3 ++ tab4 ++ tab5.

(** Lines 36-137. *)
Definition render : St unit := sequence panels.

(** One run of the script: load, read the widgets, filter, render.  The
    options of the two multiselects are computed from the loaded table
    before the filter is applied. *)
Definition run (fs : filesystem) (sel : selection) : result unit * list element :=
  match (df <- load_data fs ;;
         _ <- default_selection df ;;
         filtered_df df sel) with
  | Raise e => (Raise e, [])
  | Ok fv => let (r, s) := render (mkSession fv []) in (r, st_page s)
  end.

End Panels.

(** ** Vocabulary of the properties *)

(** The cell of a row under a column label of its frame. *)
Definition cell_at (df : DataFrame) (name : string) (r : row) : cell :=
  match get_loc name (columns df) with
  | Some j => iat j r
  | None => NaN
  end.

(** The cells of a frame under a column label, in row order. *)
Definition column (df : DataFrame) (name : string) : Series :=
  map (cell_at df name) (rows df).

(** A number inside the closed interval [[lo, hi]]. *)
Definition in_range (lo hi : Q) (c : cell) : Prop :=
  exists q, c = Num q /\ (lo <= q)%Q /\ (q <= hi)%Q.

(** Membership in a set of accepted values given as a list. *)
Definition member (c : cell) (values : list cell) : Prop :=
  exists v, In v values /\ cell_eqb c v = true.

Definition subset (small large : list cell) : Prop :=
  forall c, member c small -> member c large.

Definition has_column (df : DataFrame) (name : string) : Prop :=
  In name (columns df).

(** The column exists and holds numbers or missing values only. *)
Definition numeric_column (df : DataFrame) (name : string) : Prop :=
  has_column df name /\ Forall (fun r => numeric (cell_at df name r) = true) (rows df).

Definition datetime_column (df : DataFrame) (name : string) : Prop :=
  has_column df name /\ Forall (fun r => datetime (cell_at df name r) = true) (rows df).

(** The record table of the data model, as far as the filter needs it. *)
Definition filterable (df : DataFrame) : Prop :=
  numeric_column df "Driver Rating" /\
  has_column df "Customer Type" /\
  has_column df "Payment Method".

(** The row-wise test the three predicates of the filter amount to. *)
Definition passes (df : DataFrame) (sel : selection) (r : row) : bool :=
  match cell_at df "Driver Rating" r with
  | Num q => Qle_bool (min_rating sel) q && Qle_bool q (max_rating sel)
  | _ => false
  end
  && cell_in (customer_type sel) (cell_at df "Customer Type" r)
  && cell_in (payment_method sel) (cell_at df "Payment Method" r).

(** The outcome of a comparison with a scalar where it does not raise. *)
Definition compared (op : Q -> bool) (c : cell) : bool :=
  match c with Num q => op q | _ => false end.


Fixpoint Qsum (qs : list Q) : Q :=
  match qs with
  | [] => 0
  | q :: qs' => q + Qsum qs'
  end.

(** The arithmetic mean of a list of numbers; there is none of no number. *)
Definition arithmetic_mean (qs : list Q) : option Q :=
  match qs with
  | [] => None
  | _ :: _ => Some (Qsum qs / inject_Z (Z.of_nat (List.length qs)))
  end.



(** A multiple of [2^g]. *)
Definition on_grid (g : Z) (x : Q) : Prop :=
  exists k : Z, (x == inject_Z k * pow2 g)%Q.

Definition Qabs_sum (qs : list Q) : Q := Qsum (map Qabs qs).

(** Numbers that binary64 arithmetic adds up without rounding, in any
    order: they are multiples of one power of two, not below the smallest
    binary64 step, and their absolute values add up to less than [2^53]
    of these multiples; there are fewer than [2^53] of them.  Ratings in
    steps of a half, whole minutes and whole amounts are such numbers. *)
Definition exact_sums (qs : list Q) : Prop :=
  exists g : Z,
    (-1074 <= g <= 971)%Z /\
    Forall (on_grid g) qs /\
    (Qabs_sum qs < pow2 (g + 53))%Q /\
    (Z.of_nat (List.length qs) < 2 ^ 53)%Z.

(** A multiple of [2^g] of absolute value at most [b]. *)
Definition within (g : Z) (b x : Q) : Prop := on_grid g x /\ (Qabs x <= b)%Q.



(** The binary64 value nearest to the arithmetic mean; not-a-number of no
    number. *)
Definition mean64 (qs : list Q) : cell :=
  match arithmetic_mean qs with
  | None => NaN
  | Some m => Num (round64 m)
  end.




(** Order of timestamps on cells; nothing else is ordered by it. *)
Definition date_le (a b : cell) : Prop :=
  match a, b with
  | Date s, Date t => (s <= t)%Z
  | _, _ => False
  end.

Definition date_lt (a b : cell) : Prop :=
  match a, b with
  | Date s, Date t => (s < t)%Z
  | _, _ => False
  end.

Definition is_date (c : cell) : Prop := exists t, c = Date t.




(** The aggregation listing the dates in the order in which the view
    first shows them. *)
Definition keeps_first_appearance_order : Prop :=
  forall df sel fv out,
    filtered_df df sel = Ok fv ->
    df_daily fv = Ok out ->
    column out "Date" = unique (dropna (column fv "Date")).

(** The loader refusing every sheet of fewer than eight columns. *)
Definition rejects_narrow_sheets : Prop :=
  forall (fs : filesystem) (wb : workbook) (sh : sheet),
    fs data_path = Some wb ->
    find_sheet "Sheet1" wb = Some sh ->
    (List.length (header sh) < 8)%nat ->
    exists e, load_data fs = Raise e.

(** ** Sample tables *)

Definition example_table : DataFrame :=
  mkFrame ["Driver Rating"; "Customer Type"; "Payment Method"; "Order Value"]
    [ mkRow 0 [Num 4; Str "New"; Str "Cash"; Num 50];
      mkRow 1 [Num 2; Str "Repeat"; Str "Card"; Num 80] ].

Definition example_selection : selection :=
  mkSelection 3 5 [Str "New"; Str "Repeat"] [Str "Cash"; Str "Card"].

(** A workbook whose only sheet has two columns. *)
Definition narrow_sheet : sheet :=
  mkSheet ["Driver Rating"; "Date"] [[Num 4; Date 20]; [Num 3; Date 10]].

Definition narrow_fs : filesystem :=
  fun path => if String.eqb path data_path then Some [("Sheet1", narrow_sheet)] else None.

Definition empty_fs : filesystem := fun _ => None.

(** A workbook whose sheet has ten columns. *)
Definition wide_header : list string :=
  ["Order ID"; "Date"; "Driver Rating"; "Customer Type"; "Payment Method";
   "Order Value"; "Delivery Time(Minutes)"; "Delivery Distance (KM)";
   "Notes"; "Region"].

Definition wide_sheet : sheet :=
  mkSheet wide_header
    [ [Num 1; Date 20; Num 4; Str "New"; Str "Cash"; Num 50; Num 30; Num 5;
       Str "ok"; Str "north"];
      [Num 2; Date 10; Num 2; Str "Repeat"; Str "Card"; Num 80; NaN; Num 7;
       Str "late"; Str "south"];
      [Num 3; Date 20; Num (9 # 2); Str "Repeat"; Str "Cash"; Num 20; Num 40; Num 2;
       NaN; Str "north"] ].

Definition wide_fs : filesystem :=
  fun path => if String.eqb path data_path then Some [("Sheet1", wide_sheet)] else None.

(** The table the loader makes of [wide_sheet]. *)
Definition sample_table : DataFrame :=
  iloc_cols (mkFrame (header wide_sheet) (range_rows 0 (body wide_sheet))) 8.

Definition full_selection : selection :=
  mkSelection 1 5 [Str "New"; Str "Repeat"] [Str "Cash"; Str "Card"].

Definition narrow_selection : selection :=
  mkSelection 3 5 [Str "Repeat"] [Str "Cash"; Str "Card"].

(** A table with a text where a rating should be. *)
Definition text_rating_table : DataFrame :=
  mkFrame ["Driver Rating"; "Customer Type"; "Payment Method"]
    [ mkRow 0 [Num 4; Str "New"; Str "Cash"];
      mkRow 1 [Str "five"; Str "Repeat"; Str "Card"] ].




(** ** Vocabulary of further properties *)

(** Two states of the widgets that accept the same ratings, the same
    customer types and the same payment methods. *)
Definition same_selection (s1 s2 : selection) : Prop :=
  (min_rating s1 == min_rating s2)%Q /\
  (max_rating s1 == max_rating s2)%Q /\
  subset (customer_type s1) (customer_type s2) /\
  subset (customer_type s2) (customer_type s1) /\
  subset (payment_method s1) (payment_method s2) /\
  subset (payment_method s2) (payment_method s1).

(** No two entries are the same value. *)
Definition distinct (l : list cell) : Prop :=
  ForallOrdPairs (fun a b => cell_eqb a b = false) l.

(** [opts] are the options a multiselect offers for the column [s]: they
    are values of the column, every value of the column is among them, and
    none is offered twice. *)
Definition options_of (s : Series) (opts : list cell) : Prop :=
  distinct opts /\
  (forall c, In c opts -> In c s) /\
  (forall c, In c s -> member c opts).

(** A value the rating slider can return: from 1.0 to 5.0 in steps of
    0.5. *)
Definition slider_value (q : Q) : Prop :=
  exists k : Z, (2 <= k <= 10)%Z /\ (q == inject_Z k * (1 # 2))%Q.

(** A cell that holds no number or a multiple of a half. *)
Definition half_step (c : cell) : Prop :=
  forall q, c = Num q -> on_grid (-1) q.

(** [s] lies between [k] times [lo] and [k] times [hi], as a sum of [k]
    numbers from [lo] to [hi] does. *)
Definition sum_between (lo hi : Q) (k : nat) (s : Q) : Prop :=
  (inject_Z (Z.of_nat k) * lo <= s)%Q /\ (s <= inject_Z (Z.of_nat k) * hi)%Q.

(** A panel that, on the view [fv], ends normally and appends [out]. *)
Definition returns (p : St unit) (fv : DataFrame) (out : list element) : Prop :=
  forall pg, p (mkSession fv pg) = (Ok tt, mkSession fv (pg ++ out)).

(** A panel that, on the view [fv], appends [out] and then raises [e]. *)
Definition raises (p : St unit) (fv : DataFrame) (e : error) (out : list element) : Prop :=
  forall pg, p (mkSession fv pg) = (Raise e, mkSession fv (pg ++ out)).

(** A column argument of a chart constructor that the frame can serve. *)
Definition arg_ok (df : DataFrame) (arg : option string) : Prop :=
  match arg with
  | Some name => has_column df name
  | None => True
  end.

(** The selection [full_selection] with its options picked in another
    order, one of them twice. *)
Definition permuted_selection : selection :=
  mkSelection 1 5 [Str "Repeat"; Str "New"; Str "Repeat"] [Str "Card"; Str "Cash"].

(** ** Facts about the error monad and lists *)

Lemma mapM_Forall {A B : Type} (f : A -> result B) (g : A -> B) (P : A -> Prop) :
  (forall a, P a -> f a = Ok (g a)) ->
  forall l, Forall P l -> mapM f l = Ok (map g l).
Proof.
  intros Hf l H; induction H as [|a l Ha _ IH]; simpl.
  - reflexivity.
  - rewrite (Hf a Ha); simpl. rewrite IH; reflexivity.
Qed.

Lemma mapM_inv {A B : Type} (f : A -> result B) (g : A -> B) (P : A -> Prop) :
  (forall a b, f a = Ok b -> P a /\ b = g a) ->
  forall l l', mapM f l = Ok l' -> Forall P l /\ l' = map g l.
Proof.
  intros Hf l; induction l as [|a l IH]; simpl; intros l' H.
  - inversion H; split; [constructor | reflexivity].
  - destruct (f a) as [b|] eqn:Hb; simpl in H; [|discriminate].
    destruct (mapM f l) as [bs|] eqn:Hbs; simpl in H; [|discriminate].
    inversion H; subst; clear H.
    destruct (Hf a b Hb) as [Ha ->]. destruct (IH bs eq_refl) as [Hl ->].
    split; [constructor; assumption | reflexivity].
Qed.

Lemma select_map (f : row -> bool) (rs : list row) :
  select rs (map f rs) = filter f rs.
Proof.
  induction rs as [|r rs IH]; simpl; [reflexivity|].
  rewrite IH; reflexivity.
Qed.

Lemma mask_and_map {A : Type} (f g : A -> bool) (l : list A) :
  mask_and (map f l) (map g l) = map (fun a => f a && g a) l.
Proof.
  induction l as [|a l IH]; simpl; [reflexivity|].
  rewrite IH; reflexivity.
Qed.

Lemma filter_idem {A : Type} (f : A -> bool) (l : list A) :
  filter f (filter f l) = filter f l.
Proof.
  induction l as [|a l IH]; simpl; [reflexivity|].
  destruct (f a) eqn:Ha; simpl; [rewrite Ha, IH|]; auto.
Qed.

(** ** Facts about columns *)

Lemma get_loc_In (name : string) (cols : list string) :
  In name cols <-> get_loc name cols <> None.
Proof.
  induction cols as [|c cs IH]; simpl.
  - split; [intros [] | intros H; apply H; reflexivity].
  - destruct (String.eqb c name) eqn:E.
    + apply String.eqb_eq in E. split; [discriminate | auto].
    + apply String.eqb_neq in E. rewrite IH.
      destruct (get_loc name cs); simpl; split.
      * discriminate.
      * intros _; right; discriminate.
      * intros [H|H]; [contradiction | assumption].
      * intros H; exfalso; apply H; reflexivity.
Qed.

Lemma getitem_ok (df : DataFrame) (name : string) :
  has_column df name -> getitem df name = Ok (map (cell_at df name) (rows df)).
Proof.
  unfold has_column, getitem, cell_at. rewrite get_loc_In.
  destruct (get_loc name (columns df)); [reflexivity | intros H; exfalso; auto].
Qed.

Lemma getitem_raise (df : DataFrame) (name : string) :
  ~ has_column df name -> getitem df name = Raise (KeyError name).
Proof.
  unfold has_column, getitem. rewrite get_loc_In.
  destruct (get_loc name (columns df)); [intros H; exfalso; apply H; discriminate | reflexivity].
Qed.

Lemma getitem_inv (df : DataFrame) (name : string) (s : Series) :
  getitem df name = Ok s ->
  has_column df name /\ s = map (cell_at df name) (rows df).
Proof.
  intros H. assert (Hc : has_column df name).
  { unfold has_column. rewrite get_loc_In. unfold getitem in H.
    destruct (get_loc name (columns df)); [discriminate | discriminate]. }
  split; [assumption|]. rewrite (getitem_ok df name Hc) in H. inversion H; reflexivity.
Qed.

Lemma compare_scalar_ok (op : Q -> bool) (c : cell) :
  numeric c = true -> compare_scalar op c = Ok (compared op c).
Proof. destruct c; simpl; intros H; try discriminate; reflexivity. Qed.

Lemma compare_scalar_inv (op : Q -> bool) (c : cell) (b : bool) :
  compare_scalar op c = Ok b -> numeric c = true /\ b = compared op c.
Proof. destruct c; simpl; intros H; inversion H; auto. Qed.

(** The filter, on a table that has the three columns with numbers or
    missing values under [Driver Rating], is the row-wise test. *)
Lemma filtered_df_ok (df : DataFrame) (sel : selection) :
  filterable df ->
  filtered_df df sel = Ok (mkFrame (columns df) (filter (passes df sel) (rows df))).
Proof.
  intros [[Hr Hnum] [Hc Hp]]. unfold filtered_df.
  rewrite (getitem_ok df _ Hr); simpl.
  unfold Series_ge, Series_le.
  assert (Hnum' : Forall (fun c => numeric c = true)
                         (map (cell_at df "Driver Rating") (rows df))).
  { rewrite Forall_map. exact Hnum. }
  rewrite (mapM_Forall _ _ _ (compare_scalar_ok _) _ Hnum'); simpl.
  rewrite (mapM_Forall _ _ _ (compare_scalar_ok _) _ Hnum'); simpl.
  rewrite (getitem_ok df _ Hc), (getitem_ok df _ Hp); simpl.
  unfold getitem_mask, isin. rewrite !map_map, !mask_and_map, select_map.
  do 2 f_equal. apply filter_ext. intros r. unfold passes.
  destruct (cell_at df "Driver Rating" r); reflexivity.
Qed.

(** On any other table the filter raises. *)
Lemma filtered_df_inv (df : DataFrame) (sel : selection) (fv : DataFrame) :
  filtered_df df sel = Ok fv -> filterable df.
Proof.
  unfold filtered_df. intros H.
  destruct (getitem df "Driver Rating") as [r|] eqn:Hr; simpl in H; [|discriminate].
  destruct (Series_ge r (min_rating sel)) as [m1|] eqn:H1; simpl in H; [|discriminate].
  destruct (Series_le r (max_rating sel)) as [m2|] eqn:H2; simpl in H; [|discriminate].
  destruct (getitem df "Customer Type") as [ct|] eqn:Hc; simpl in H; [|discriminate].
  destruct (getitem df "Payment Method") as [pm|] eqn:Hp; simpl in H; [|discriminate].
  apply getitem_inv in Hr, Hc, Hp. destruct Hr as [Hr ->], Hc as [Hc _], Hp as [Hp _].
  apply (mapM_inv _ _ _ (compare_scalar_inv _)) in H1. destruct H1 as [H1 _].
  rewrite Forall_map in H1.
  repeat split; assumption.
Qed.

Lemma filtered_df_rows (df : DataFrame) (sel : selection) (fv : DataFrame) :
  filtered_df df sel = Ok fv ->
  columns fv = columns df /\ rows fv = filter (passes df sel) (rows df).
Proof.
  intros H. pose proof (filtered_df_inv _ _ _ H) as Hf.
  rewrite (filtered_df_ok df sel Hf) in H. inversion H; subst; simpl; auto.
Qed.

Lemma cell_in_member (values : list cell) (c : cell) :
  cell_in values c = true <-> member c values.
Proof. unfold cell_in, member. apply existsb_exists. Qed.

Lemma passes_iff (df : DataFrame) (sel : selection) (r : row) :
  passes df sel r = true <->
  in_range (min_rating sel) (max_rating sel) (cell_at df "Driver Rating" r) /\
  member (cell_at df "Customer Type" r) (customer_type sel) /\
  member (cell_at df "Payment Method" r) (payment_method sel).
Proof.
  unfold passes, in_range. rewrite !andb_true_iff, !cell_in_member.
  destruct (cell_at df "Driver Rating" r) as [q| | |].
  - rewrite andb_true_iff, !Qle_bool_iff. split.
    + intros [[H1 H2] H3]. repeat split; try tauto. exists q; tauto.
    + intros [[q' [E [H1 H2]]] H3]. inversion E; subst. tauto.
  - split; [intros [[H _] _]; discriminate | intros [[q [E _]] _]; discriminate].
  - split; [intros [[H _] _]; discriminate | intros [[q [E _]] _]; discriminate].
  - split; [intros [[H _] _]; discriminate | intros [[q [E _]] _]; discriminate].
Qed.

Lemma cell_eqb_refl (c : cell) : cell_eqb c c = true.
Proof.
  destruct c; simpl; auto using Qeq_bool_refl, String.eqb_refl, Z.eqb_refl.
Qed.

Lemma cell_eqb_sym (a b : cell) : cell_eqb a b = cell_eqb b a.
Proof.
  destruct a, b; simpl; auto using Qeq_bool_comm, String.eqb_sym, Z.eqb_sym.
Qed.

Lemma cell_eqb_trans (a b c : cell) :
  cell_eqb a b = true -> cell_eqb b c = true -> cell_eqb a c = true.
Proof.
  destruct a, b, c; simpl; try discriminate; auto.
  - apply Qeq_bool_trans.
  - rewrite !String.eqb_eq; congruence.
  - rewrite !Z.eqb_eq; congruence.
Qed.

Lemma unique_incl (s : Series) (c : cell) : In c (unique s) -> In c s.
Proof.
  revert c; induction s as [|a s IH]; simpl; intros c H; [assumption|].
  destruct H as [H|H]; [auto|]. apply filter_In in H. right; apply IH; tauto.
Qed.

Lemma unique_member (s : Series) (c : cell) : In c s -> member c (unique s).
Proof.
  induction s as [|a s IH]; simpl; intros H; [contradiction|].
  destruct H as [->|H].
  - exists c; split; [left; reflexivity | apply cell_eqb_refl].
  - destruct (IH H) as [v [Hv E]].
    destruct (cell_eqb v a) eqn:Eva.
    + exists a; split; [left; reflexivity | eapply cell_eqb_trans; eassumption].
    + exists v; split; [|assumption]. right. apply filter_In. rewrite Eva; auto.
Qed.

Lemma filterable_columns (df fv : DataFrame) :
  columns fv = columns df -> incl (rows fv) (rows df) ->
  filterable df -> filterable fv.
Proof.
  intros Hc Hi [[Hr Hn] [Ht Hp]]. unfold filterable, numeric_column, has_column, cell_at in *.
  rewrite Hc. repeat split; try assumption.
  rewrite Forall_forall in *. intros r Hin. apply Hn, Hi, Hin.
Qed.

Lemma passes_columns (df fv : DataFrame) (sel : selection) (r : row) :
  columns fv = columns df -> passes fv sel r = passes df sel r.
Proof. intros Hc. unfold passes, cell_at. rewrite Hc. reflexivity. Qed.

Lemma sample_table_filterable : filterable sample_table.
Proof.
  unfold filterable, numeric_column, has_column. simpl.
  repeat split; try tauto. repeat constructor.
Qed.

Lemma example_table_filterable : filterable example_table.
Proof.
  unfold filterable, numeric_column, has_column. simpl.
  repeat split; try tauto. repeat constructor.
Qed.

(** ** The Filter Controller: properties *)

(** C1.  The filter is exact.  On a record table (the three filter columns
    present, numbers under [Driver Rating]) the filter returns a view with
    the columns of the table, and a row is in the view if and only if it is
    a row of the table whose rating lies in the closed interval, whose
    customer type is one of the accepted ones and whose payment method is
    one of the accepted ones.  On the two-row example the view is the first
    row alone and the mean order value over it is 50. *)
Theorem filter_exact (df : DataFrame) (sel : selection) :
  filterable df ->
  (exists fv,
      filtered_df df sel = Ok fv /\
      columns fv = columns df /\
      forall r, In r (rows fv) <->
        In r (rows df) /\
        in_range (min_rating sel) (max_rating sel) (cell_at df "Driver Rating" r) /\
        member (cell_at df "Customer Type" r) (customer_type sel) /\
        member (cell_at df "Payment Method" r) (payment_method sel)) /\
  (exists fv,
      filtered_df example_table example_selection = Ok fv /\
      rows fv = [mkRow 0 [Num 4; Str "New"; Str "Cash"; Num 50]] /\
      avg_value fv = Ok (Num 50)).
Proof.
  intros Hf. split.
  - eexists. split; [apply filtered_df_ok; assumption|]. simpl. split; [reflexivity|].
    intros r. rewrite filter_In, passes_iff. tauto.
  - eexists. split; [apply filtered_df_ok, example_table_filterable|].
    split; [reflexivity | vm_compute; reflexivity].
Qed.

Lemma filter_exact_witness :
  filterable sample_table /\
  exists fv, filtered_df sample_table narrow_selection = Ok fv /\
             map label (rows fv) = [2%nat].
Proof.
  split; [exact sample_table_filterable|].
  destruct (filter_exact sample_table narrow_selection sample_table_filterable)
    as [[fv [H _]] _].
  exists fv. split; [exact H|].
  rewrite (filtered_df_ok _ _ sample_table_filterable) in H.
  inversion H. reflexivity.
Defined.

(** C2.  An empty selection of customer types or of payment methods leaves
    no row, whatever the rating range and the other selection: the filter
    never raises on a record table, and whenever it returns, the view it
    returns has zero rows. *)
Theorem empty_selection_empty_view (df : DataFrame) (sel : selection) :
  customer_type sel = [] \/ payment_method sel = [] ->
  (filterable df -> exists fv, filtered_df df sel = Ok fv) /\
  (forall fv, filtered_df df sel = Ok fv -> rows fv = []).
Proof.
  intros He. split.
  - intros Hf. eexists. apply filtered_df_ok; assumption.
  - intros fv H. apply filtered_df_rows in H. destruct H as [_ ->].
    induction (rows df) as [|r rs IH]; simpl; [reflexivity|].
    assert (Hp : passes df sel r = false).
    { unfold passes. destruct He as [-> | ->]; simpl.
      - rewrite andb_false_r; reflexivity.
      - apply andb_false_r. }
    rewrite Hp. exact IH.
Qed.

Lemma empty_selection_empty_view_witness :
  exists fv,
    filtered_df sample_table (mkSelection 1 5 [] [Str "Cash"]) = Ok fv /\ rows fv = [].
Proof.
  destruct (empty_selection_empty_view sample_table (mkSelection 1 5 [] [Str "Cash"])
              (or_introl eq_refl)) as [Hex Hall].
  destruct (Hex sample_table_filterable) as [fv Hfv].
  exists fv. split; [exact Hfv | exact (Hall fv Hfv)].
Defined.

(** C7.  Filtering is idempotent: the filter applied with the same inputs
    to the view it returned returns that view again. *)
Theorem filter_idempotent (df : DataFrame) (sel : selection) (fv : DataFrame) :
  filtered_df df sel = Ok fv -> filtered_df fv sel = Ok fv.
Proof.
  intros H. pose proof (filtered_df_inv _ _ _ H) as Hf.
  destruct (filtered_df_rows _ _ _ H) as [Hc Hr].
  assert (Hfv : filterable fv).
  { apply (filterable_columns df); try assumption.
    rewrite Hr. intros r Hin. apply filter_In in Hin. tauto. }
  rewrite (filtered_df_ok fv sel Hfv). destruct fv as [cs rs]; simpl in *. subst.
  do 2 f_equal. rewrite (filter_ext _ (passes df sel)).
  - apply filter_idem.
  - intros r. apply passes_columns. reflexivity.
Qed.

Lemma filter_idempotent_witness :
  exists fv, filtered_df sample_table narrow_selection = Ok fv /\
             filtered_df fv narrow_selection = Ok fv.
Proof.
  eexists. split.
  - apply filtered_df_ok, sample_table_filterable.
  - apply (filter_idempotent sample_table). apply filtered_df_ok, sample_table_filterable.
Defined.

(** C10.  The filter is monotone in its inputs: when the rating interval,
    the customer types and the payment methods of one selection are
    contained in those of another, every row of the view of the first is a
    row of the view of the second.  With the widgets in their initial state
    (range from 1 to 5, every value of both columns selected) every row of
    the table whose rating is a number from 1 to 5 is retained. *)
Theorem filter_monotone (df : DataFrame) (small large : selection) (fv : DataFrame) :
  (forall q, (min_rating small <= q)%Q /\ (q <= max_rating small)%Q ->
             (min_rating large <= q)%Q /\ (q <= max_rating large)%Q) ->
  subset (customer_type small) (customer_type large) ->
  subset (payment_method small) (payment_method large) ->
  filtered_df df small = Ok fv ->
  (exists fv', filtered_df df large = Ok fv' /\ incl (rows fv) (rows fv')) /\
  (exists sel0 fv0,
      default_selection df = Ok sel0 /\
      filtered_df df sel0 = Ok fv0 /\
      forall r, In r (rows df) ->
                in_range 1 5 (cell_at df "Driver Rating" r) ->
                In r (rows fv0)).
Proof.
  intros Hq Hc Hp H. pose proof (filtered_df_inv _ _ _ H) as Hf.
  destruct (filtered_df_rows _ _ _ H) as [_ Hr]. split.
  - eexists. split; [apply filtered_df_ok; assumption|]. simpl.
    rewrite Hr. intros r Hin. rewrite filter_In in *.
    destruct Hin as [Hin Hpass]. split; [assumption|].
    rewrite passes_iff in *. destruct Hpass as [[q [E Hin']] [H1 H2]].
    split; [exists q; split; [assumption | apply Hq; assumption] | auto].
  - destruct Hf as [Hn [Ht Hm]].
    unfold default_selection. rewrite (getitem_ok _ _ Ht), (getitem_ok _ _ Hm). simpl.
    eexists. eexists. split; [reflexivity|].
    split; [apply filtered_df_ok; exact (conj Hn (conj Ht Hm))|]. simpl.
    intros r Hin Hrange. apply filter_In. split; [assumption|].
    apply passes_iff. simpl. split; [assumption|].
    split; apply unique_member, in_map; assumption.
Qed.

Lemma filter_monotone_witness :
  exists fv fv',
    filtered_df sample_table narrow_selection = Ok fv /\
    filtered_df sample_table full_selection = Ok fv' /\
    incl (rows fv) (rows fv').
Proof.
  assert (Hq : forall q, (min_rating narrow_selection <= q)%Q /\
                         (q <= max_rating narrow_selection)%Q ->
                         (min_rating full_selection <= q)%Q /\
                         (q <= max_rating full_selection)%Q).
  { simpl. intros q [H1 H2]. split; [|assumption].
    apply Qle_trans with (y := 3%Q); [discriminate | assumption]. }
  assert (Hc : subset (customer_type narrow_selection) (customer_type full_selection)).
  { intros c [v [Hv E]]. exists v. split; [|assumption]. simpl in *. tauto. }
  assert (Hp : subset (payment_method narrow_selection) (payment_method full_selection)).
  { intros c Hm. exact Hm. }
  destruct (filter_monotone sample_table narrow_selection full_selection _ Hq Hc Hp
              (filtered_df_ok _ _ sample_table_filterable)) as [[fv' [H1 H2]] _].
  eexists. exists fv'. split; [apply filtered_df_ok, sample_table_filterable|].
  split; assumption.
Defined.

(** ** The Data Loader: properties *)

Lemma range_rows_label (b : list (list cell)) (start : nat) :
  map label (range_rows start b) = seq start (List.length b).
Proof.
  revert start; induction b as [|cs b IH]; simpl; intros start; [reflexivity|].
  rewrite IH; reflexivity.
Qed.

Lemma range_rows_cells (b : list (list cell)) (start : nat) :
  map cells (range_rows start b) = b.
Proof.
  revert start; induction b as [|cs b IH]; simpl; intros start; [reflexivity|].
  rewrite IH; reflexivity.
Qed.

Lemma load_data_inv (fs : filesystem) (df : DataFrame) :
  load_data fs = Ok df ->
  exists wb sh,
    fs data_path = Some wb /\ find_sheet "Sheet1" wb = Some sh /\
    df = iloc_cols (mkFrame (header sh) (range_rows 0 (body sh))) 8.
Proof.
  unfold load_data, read_excel. intros H.
  destruct (fs data_path) as [wb|] eqn:Hwb; [|discriminate].
  destruct (find_sheet "Sheet1" wb) as [sh|] eqn:Hsh; [|discriminate].
  simpl in H. inversion H. exists wb, sh. repeat split; assumption || reflexivity.
Qed.

Lemma get_loc_firstn (name : string) (l : list string) (n j : nat) :
  get_loc name l = Some j ->
  get_loc name (firstn n l) = if (j <? n)%nat then Some j else None.
Proof.
  revert n j; induction l as [|c l IH]; simpl; intros n j H; [discriminate|].
  destruct n as [|n]; [destruct (j <? 0)%nat eqn:E; [apply Nat.ltb_lt in E; lia | reflexivity]|].
  simpl. destruct (String.eqb c name).
  - inversion H; subst. reflexivity.
  - destruct (get_loc name l) as [j'|]; [|discriminate]. simpl in H. inversion H; subst.
    rewrite (IH n j' eq_refl). change (S j' <? S n)%nat with (j' <? n)%nat.
    destruct (j' <? n)%nat; reflexivity.
Qed.

(** Slicing keeps what the columns it keeps hold. *)
Lemma iloc_cols_getitem (full : DataFrame) (n : nat) (name : string) (j : nat) :
  get_loc name (columns full) = Some j -> (j < n)%nat ->
  getitem (iloc_cols full n) name = getitem full name.
Proof.
  intros Hj Hlt. unfold getitem, iloc_cols. cbn [columns rows].
  rewrite (get_loc_firstn _ _ n _ Hj), Hj. apply Nat.ltb_lt in Hlt. rewrite Hlt.
  f_equal. rewrite map_map. apply map_ext. intros r. unfold iat. cbn [cells].
  rewrite nth_firstn, Hlt. reflexivity.
Qed.

Lemma NoDup_firstn {A : Type} (n : nat) (l : list A) : NoDup l -> NoDup (firstn n l).
Proof.
  intros H. rewrite <- (firstn_skipn n l) in H. apply NoDup_app_remove_r in H. exact H.
Qed.

Lemma Forall_firstn {A : Type} (P : A -> Prop) (n : nat) (l : list A) :
  Forall P l -> Forall P (firstn n l).
Proof.
  intros H. rewrite <- (firstn_skipn n l) in H. apply Forall_app in H. apply H.
Qed.

Lemma Forall_skipn {A : Type} (P : A -> Prop) (n : nat) (l : list A) :
  Forall P l -> Forall P (skipn n l).
Proof.
  intros H. rewrite <- (firstn_skipn n l) in H. apply Forall_app in H. apply H.
Qed.

(** C8.  The table the loader returns is the first eight columns of the
    table read from the sheet, in their order and under their labels, or
    all its columns when it has fewer.  It has the rows of that table
    under their labels, every one cut to its first eight cells and
    otherwise as it was.  A column that stands among the first eight is
    read from the loaded table as it is read from the table of the sheet;
    a label that is not among the first eight is not a column of the
    loaded table, so nothing after the loader can reach it.  Of a parsed
    sheet the loaded table has distinct labels, a cell under every column
    in every row, and no text that stands for a missing value. *)
Theorem load_data_first_eight (fs : filesystem) (df : DataFrame) :
  load_data fs = Ok df ->
  exists wb sh full,
    fs data_path = Some wb /\ find_sheet "Sheet1" wb = Some sh /\
    read_excel fs data_path "Sheet1" = Ok full /\
    columns df = firstn 8 (columns full) /\
    (8 <= List.length (columns full) -> List.length (columns df) = 8)%nat /\
    map label (rows df) = map label (rows full) /\
    map cells (rows df) = map (fun r => firstn 8 (cells r)) (rows full) /\
    (forall name j, get_loc name (columns full) = Some j -> (j < 8)%nat ->
                    getitem df name = getitem full name) /\
    (forall name, ~ In name (firstn 8 (columns full)) ->
                  getitem df name = Raise (KeyError name)) /\
    (parsed sh ->
     NoDup (columns df) /\
     Forall (fun r => List.length (cells r) = List.length (columns df)) (rows df) /\
     Forall (fun r => Forall (fun c => na_text c = false) (cells r)) (rows df)).
Proof.
  intros H. destruct (load_data_inv _ _ H) as [wb [sh [Hwb [Hsh ->]]]].
  exists wb, sh, (mkFrame (header sh) (range_rows 0 (body sh))).
  split; [exact Hwb|]. split; [exact Hsh|].
  split; [unfold read_excel; rewrite Hwb, Hsh; reflexivity|].
  split; [reflexivity|].
  split; [intros Hlen; apply firstn_length_le; exact Hlen|].
  split; [unfold iloc_cols; cbn [rows]; rewrite map_map; reflexivity|].
  split; [unfold iloc_cols; cbn [rows]; rewrite map_map; reflexivity|].
  split; [intros name j Hj Hlt; apply (iloc_cols_getitem _ 8 name j Hj Hlt)|].
  split; [intros name Hn; apply getitem_raise; exact Hn|].
  intros [Hnd [Hrect Hna]]. unfold iloc_cols; cbn [columns rows].
  assert (Hin : forall r, In r (range_rows 0 (body sh)) -> In (cells r) (body sh)).
  { intros r Hr. rewrite <- (range_rows_cells (body sh) 0). apply in_map. exact Hr. }
  split; [apply NoDup_firstn; exact Hnd|]. split.
  - rewrite Forall_map. cbn [cells]. apply Forall_forall. intros r Hr.
    rewrite !length_firstn. f_equal.
    rewrite Forall_forall in Hrect. apply Hrect, Hin, Hr.
  - rewrite Forall_map. cbn [cells]. apply Forall_forall. intros r Hr.
    apply Forall_firstn. rewrite Forall_forall in Hna. apply Hna, Hin, Hr.
Qed.

Lemma wide_sheet_parsed : parsed wide_sheet.
Proof.
  split; [|split].
  - repeat constructor; simpl; intuition discriminate.
  - repeat constructor.
  - repeat constructor.
Qed.

Lemma load_data_first_eight_witness :
  exists df,
    load_data wide_fs = Ok df /\
    columns df = firstn 8 wide_header /\
    List.length (columns df) = 8%nat /\
    getitem df "Order Value" = Ok [Num 50; Num 80; Num 20] /\
    getitem df "Region" = Raise (KeyError "Region") /\
    NoDup (columns df).
Proof.
  exists sample_table.
  destruct (load_data_first_eight wide_fs sample_table eq_refl)
    as [wb [sh [full [Hwb [Hsh [Hfull [Hc [Hl [_ [_ [Hkeep [Hgone Hp]]]]]]]]]]]].
  inversion Hwb; subst wb. inversion Hsh; subst sh.
  assert (E : full = mkFrame wide_header (range_rows 0 (body wide_sheet))).
  { unfold read_excel in Hfull. rewrite Hwb, Hsh in Hfull. inversion Hfull. reflexivity. }
  subst full. split; [reflexivity|]. split; [exact Hc|].
  split; [apply Hl; cbn [columns]; unfold wide_header; simpl; lia|].
  split; [|split].
  - rewrite (Hkeep "Order Value" 5%nat eq_refl); [reflexivity | lia].
  - apply Hgone. unfold wide_header. simpl. intuition discriminate.
  - apply Hp, wide_sheet_parsed.
Defined.

(** C4, as stated, fails: a sheet of two columns is loaded without an
    error, into a table of two columns. *)
Lemma load_data_narrow_sheet_accepted :
  load_data narrow_fs =
    Ok (mkFrame ["Driver Rating"; "Date"]
          [mkRow 0 [Num 4; Date 20]; mkRow 1 [Num 3; Date 10]]) /\
  ~ rejects_narrow_sheets.
Proof.
  split; [reflexivity|]. intros H.
  destruct (H narrow_fs [("Sheet1", narrow_sheet)] narrow_sheet eq_refl eq_refl)
    as [e He].
  - simpl. lia.
  - discriminate He.
Qed.

(** ** Binary64 arithmetic: sums that are exact *)

Section Binary64Facts.

Local Open Scope Q_scope.

Lemma round64_wd (x y : Q) : x == y -> round64 x = round64 y.
Proof. intros H. unfold round64. rewrite (Qred_complete x y H). reflexivity. Qed.

Lemma pow2_pos (e : Z) : 0 < pow2 e.
Proof. apply Qpower_0_lt. reflexivity. Qed.

Lemma pow2_plus (a b : Z) : pow2 (a + b) == pow2 a * pow2 b.
Proof. apply Qpower_plus. discriminate. Qed.

Lemma pow2_Z (n : Z) : (0 <= n)%Z -> pow2 n == inject_Z (2 ^ n).
Proof. intros H. unfold pow2. rewrite Zpower_Qpower by exact H. reflexivity. Qed.

Lemma pow2_lt_inv (a b : Z) : pow2 a < pow2 b -> (a < b)%Z.
Proof. intros H. apply (Qpower_lt_compat_l_inv 2); [exact H | reflexivity]. Qed.

Lemma ilog2_sound (q : Q) : ~ q == 0 -> pow2 (ilog2 q) <= Qabs q.
Proof.
  intros Hq. unfold ilog2.
  set (a := Z.abs (Qnum q)). set (b := Zpos (Qden q)).
  destruct (Qle_bool (pow2 (Z.log2 a - Z.log2 b)) (Qabs q)) eqn:E.
  - apply Qle_bool_iff. exact E.
  - assert (Ha : (0 < a)%Z).
    { unfold a. destruct q as [n d]. unfold Qeq in Hq. simpl in *. lia. }
    destruct (Z.log2_spec a Ha) as [Hla _].
    destruct (Z.log2_spec b eq_refl) as [_ Hlb].
    assert (Hq' : Qabs q == inject_Z a / inject_Z b).
    { destruct q as [n d]. unfold a, b. simpl. apply Qmake_Qdiv. }
    rewrite Hq'. apply Qle_shift_div_l; [unfold b; reflexivity|].
    apply Qle_trans with (pow2 (Z.log2 a - Z.log2 b - 1) * pow2 (Z.succ (Z.log2 b))).
    + apply Qmult_le_l; [apply pow2_pos|].
      rewrite pow2_Z by (pose proof (Z.log2_nonneg b); lia).
      rewrite <- Zle_Qle. lia.
    + rewrite <- pow2_plus.
      replace (Z.log2 a - Z.log2 b - 1 + Z.succ (Z.log2 b))%Z with (Z.log2 a) by lia.
      rewrite pow2_Z by apply Z.log2_nonneg. rewrite <- Zle_Qle. exact Hla.
Qed.

Lemma rne_int (x : Q) (z : Z) : x == inject_Z z -> rne x = z.
Proof.
  intros H. unfold rne.
  assert (Hf : Qfloor x = z) by (rewrite H; apply Qfloor_Z).
  cbv zeta. rewrite Hf.
  assert (Hc : Qcompare (x - inject_Z z) (1 # 2) = Lt).
  { apply Qlt_alt. rewrite H.
    setoid_replace (inject_Z z - inject_Z z) with 0 by ring. reflexivity. }
  rewrite Hc. reflexivity.
Qed.

(** A multiple of [2^g] of magnitude below [2^(g+53)], with [g] no less
    than the least binary64 exponent, is a binary64 value. *)
Lemma round64_exact (g k : Z) (x : Q) :
  (-1074 <= g)%Z -> x == inject_Z k * pow2 g -> Qabs x < pow2 (g + 53) ->
  round64 x == x.
Proof.
  intros Hg Hx Hb. unfold round64.
  pose proof (Qred_correct x) as Hr.
  destruct (Qeq_bool (Qred x) 0) eqn:E.
  - apply Qeq_bool_iff in E. rewrite <- Hr, E. reflexivity.
  - assert (Hn : ~ Qred x == 0).
    { intros H0. apply Qeq_bool_iff in H0. congruence. }
    set (e := Z.max (-1074) (ilog2 (Qred x) - 52)).
    assert (He : (e <= g)%Z).
    { assert (ilog2 (Qred x) < g + 53)%Z; [|unfold e; lia].
      apply pow2_lt_inv. eapply Qle_lt_trans; [apply ilog2_sound, Hn|].
      rewrite Hr. exact Hb. }
    assert (Hd : Qred x / pow2 e == inject_Z (k * 2 ^ (g - e))).
    { rewrite Hr, Hx, inject_Z_mult, <- pow2_Z by lia.
      replace g with ((g - e) + e)%Z at 1 by lia. rewrite pow2_plus.
      field. intros H0. pose proof (pow2_pos e) as Hp. rewrite H0 in Hp.
      discriminate Hp. }
    rewrite (rne_int _ _ Hd), Qred_correct, inject_Z_mult, <- pow2_Z by lia.
    rewrite <- Qmult_assoc, <- pow2_plus.
    replace (g - e + e)%Z with g by lia. symmetry. exact Hx.
Qed.

Lemma on_grid_wd (g : Z) (x y : Q) : x == y -> on_grid g x -> on_grid g y.
Proof. intros E [k H]. exists k. rewrite <- E. exact H. Qed.

Lemma on_grid_0 (g : Z) : on_grid g 0.
Proof. exists 0%Z. ring. Qed.

Lemma on_grid_plus (g : Z) (x y : Q) : on_grid g x -> on_grid g y -> on_grid g (x + y).
Proof.
  intros [k Hk] [j Hj]. exists (k + j)%Z. rewrite inject_Z_plus, Hk, Hj. ring.
Qed.

Lemma on_grid_minus (g : Z) (x y : Q) : on_grid g x -> on_grid g y -> on_grid g (x - y).
Proof.
  intros [k Hk] [j Hj]. exists (k - j)%Z.
  unfold Z.sub. rewrite inject_Z_plus, inject_Z_opp, Hk, Hj. ring.
Qed.

Lemma Qabs_sum_nonneg (l : list Q) : 0 <= Qabs_sum l.
Proof.
  unfold Qabs_sum. induction l as [|x l IH]; simpl; [apply Qle_refl|].
  rewrite <- (Qplus_0_r 0). apply Qplus_le_compat; [apply Qabs_nonneg | exact IH].
Qed.




Section Exact.

Variable g : Z.
Hypothesis g_min : (-1074 <= g)%Z.

Lemma round_within (b x : Q) : within g b x -> b < pow2 (g + 53) -> round64 x == x.
Proof.
  intros [[k Hk] Hb] Hlt. apply (round64_exact g k); [exact g_min | exact Hk|].
  eapply Qle_lt_trans; eassumption.
Qed.

Lemma fadd_within (b c x y : Q) :
  within g b x -> within g c y -> b + c < pow2 (g + 53) ->
  fadd x y == x + y /\ within g (b + c) (fadd x y).
Proof.
  intros [Hx Hb] [Hy Hc] Hlt.
  assert (Hw : within g (b + c) (x + y)).
  { split; [apply on_grid_plus; assumption|].
    eapply Qle_trans; [apply Qabs_triangle|]. apply Qplus_le_compat; assumption. }
  assert (E : fadd x y == x + y) by (apply (round_within (b + c)); assumption).
  split; [exact E|]. destruct Hw as [Hg Ha]. split.
  - apply (on_grid_wd g (x + y)); [symmetry; exact E | exact Hg].
  - rewrite E. exact Ha.
Qed.

Lemma within_elem (x : Q) : on_grid g x -> within g (Qabs x) x.
Proof. intros H. split; [exact H | apply Qle_refl]. Qed.









Lemma kahan_exact (l : list Q) :
  Forall (on_grid g) l ->
  forall b s c,
    within g b s -> c == 0 -> b + Qabs_sum l < pow2 (g + 53) ->
    fst (fold_left kahan_step l (s, c)) == s + Qsum l.
Proof.
  intros H. induction H as [|x l Hx _ IH]; intros b s c Hs Hc Hlt.
  - simpl. ring.
  - cbn [fold_left kahan_step].
    unfold Qabs_sum in Hlt. simpl in Hlt. fold (Qabs_sum l) in Hlt.
    pose proof (Qabs_sum_nonneg l) as Nl. pose proof (Qabs_nonneg x) as Nx.
    assert (Nb : 0 <= b).
    { destruct Hs as [_ Hs]. eapply Qle_trans; [apply Qabs_nonneg | exact Hs]. }
    assert (Ey : fsub x c == x).
    { unfold fsub. rewrite (round64_wd _ x) by (rewrite Hc; ring).
      apply (round_within (Qabs x)); [apply within_elem; exact Hx | lra]. }
    assert (Wy : within g (Qabs x) (fsub x c)).
    { split; [apply (on_grid_wd g x); [symmetry; exact Ey | exact Hx]|].
      rewrite Ey. apply Qle_refl. }
    destruct (fadd_within b (Qabs x) s (fsub x c) Hs Wy) as [Et Wt]; [lra|].
    assert (Ec : fsub (fsub (fadd s (fsub x c)) s) (fsub x c) == 0).
    { unfold fsub at 1 2.
      assert (E1 : round64 (fadd s (fsub x c) - s) == x).
      { rewrite (round64_wd _ x) by (rewrite Et, Ey; ring).
        apply (round_within (Qabs x)); [apply within_elem; exact Hx | lra]. }
      rewrite (round64_wd _ 0) by (rewrite E1, Ey; ring). reflexivity. }
    rewrite (IH (b + Qabs x) _ _ Wt Ec) by lra.
    rewrite Et, Ey. cbn [Qsum]. ring.
Qed.

End Exact.

(** *** Rounding between binary64 values *)

Lemma rne_between (y : Q) (A B : Z) :
  inject_Z A <= y -> y <= inject_Z B -> (A <= rne y <= B)%Z.
Proof.
  intros HA HB.
  assert (Hf1 : (A <= Qfloor y)%Z).
  { rewrite <- (Qfloor_Z A). apply Qfloor_resp_le. exact HA. }
  assert (Hf2 : (Qfloor y <= B)%Z).
  { rewrite <- (Qfloor_Z B). apply Qfloor_resp_le. exact HB. }
  assert (Hup : 0 < y - inject_Z (Qfloor y) -> (Qfloor y + 1 <= B)%Z).
  { intros Hpos. assert (Qfloor y < B)%Z; [|lia].
    rewrite Zlt_Qlt. lra. }
  unfold rne. cbv zeta.
  destruct (Qcompare (y - inject_Z (Qfloor y)) (1 # 2)) eqn:E.
  - apply Qeq_alt in E. destruct (Z.even (Qfloor y)); [lia|].
    split; [lia|]. apply Hup. rewrite E. reflexivity.
  - lia.
  - apply Qgt_alt in E. split; [lia|]. apply Hup. lra.
Qed.

Lemma pow2_nonzero (e : Z) : ~ pow2 e == 0.
Proof. intros H. pose proof (pow2_pos e) as Hp. rewrite H in Hp. discriminate Hp. Qed.

Lemma on_grid_finer (g e : Z) (a : Q) :
  (e <= g)%Z -> on_grid g a -> exists A : Z, a == inject_Z A * pow2 e.
Proof.
  intros He [k Hk]. exists (k * 2 ^ (g - e))%Z.
  rewrite inject_Z_mult, <- pow2_Z by lia. rewrite <- Qmult_assoc, <- pow2_plus.
  replace (g - e + e)%Z with g by lia. exact Hk.
Qed.

(** Rounding does not cross a binary64 value: between two multiples of
    [2^g] that are binary64 values, the rounded value stays between
    them. *)
Lemma round64_between (g : Z) (a b x : Q) :
  (-1074 <= g)%Z -> on_grid g a -> on_grid g b ->
  Qabs a < pow2 (g + 53) -> Qabs b < pow2 (g + 53) ->
  a <= x -> x <= b -> a <= round64 x /\ round64 x <= b.
Proof.
  intros Hg Ha Hb Ba Bb Hax Hxb. unfold round64.
  pose proof (Qred_correct x) as Hr.
  destruct (Qeq_bool (Qred x) 0) eqn:E.
  - apply Qeq_bool_iff in E. rewrite Hr in E. rewrite E in Hax, Hxb. split; assumption.
  - assert (Hn : ~ Qred x == 0).
    { intros H0. apply Qeq_bool_iff in H0. congruence. }
    set (e := Z.max (-1074) (ilog2 (Qred x) - 52)).
    assert (Hxabs : Qabs x < pow2 (g + 53)).
    { apply Qabs_case; intros Hs.
      - eapply Qle_lt_trans; [exact Hxb|]. eapply Qle_lt_trans; [apply Qle_Qabs | exact Bb].
      - apply Qle_lt_trans with (- a); [lra|].
        eapply Qle_lt_trans; [|exact Ba]. rewrite <- Qabs_opp. apply Qle_Qabs. }
    assert (He : (e <= g)%Z).
    { assert (ilog2 (Qred x) < g + 53)%Z; [|unfold e; lia].
      apply pow2_lt_inv. eapply Qle_lt_trans; [apply ilog2_sound, Hn|].
      rewrite Hr. exact Hxabs. }
    destruct (on_grid_finer g e a He Ha) as [A HA].
    destruct (on_grid_finer g e b He Hb) as [B HB].
    pose proof (pow2_pos e) as Hp.
    assert (H1 : inject_Z A <= Qred x / pow2 e).
    { apply Qle_shift_div_l; [exact Hp|]. rewrite <- HA, Hr. exact Hax. }
    assert (H2 : Qred x / pow2 e <= inject_Z B).
    { apply Qle_shift_div_r; [exact Hp|]. rewrite <- HB, Hr. exact Hxb. }
    destruct (rne_between _ _ _ H1 H2) as [R1 R2].
    rewrite Qred_correct, HA, HB. split.
    + apply Qmult_le_compat_r; [|apply Qlt_le_weak; exact Hp].
      rewrite <- Zle_Qle. exact R1.
    + apply Qmult_le_compat_r; [|apply Qlt_le_weak; exact Hp].
      rewrite <- Zle_Qle. exact R2.
Qed.






End Binary64Facts.

(** ** Means: properties *)

Section MeanFacts.

Local Open Scope Q_scope.

(** The depth of the splitting never uses up a fuel as large as the
    list is long: any such fuel gives the same sum. *)
Lemma pairwise_sum_fuel (f1 : nat) :
  forall f2 l,
    (List.length l <= f1)%nat -> (List.length l <= f2)%nat ->
    pairwise_sum f1 l = pairwise_sum f2 l.
Proof.
  induction f1 as [|f1 IH]; intros f2 l H1 H2.
  - destruct l; [|simpl in H1; lia]. destruct f2; reflexivity.
  - destruct f2 as [|f2].
    + destruct l; [|simpl in H2; lia]. reflexivity.
    + cbn [pairwise_sum].
      destruct (List.length l <? 8)%nat eqn:E8; [reflexivity|].
      destruct (List.length l <=? 128)%nat eqn:E128; [reflexivity|].
      apply Nat.ltb_ge in E8. apply Nat.leb_gt in E128.
      set (n2 := (List.length l / 2 - (List.length l / 2) mod 8)%nat).
      assert (Hn2 : (0 < n2 < List.length l)%nat).
      { unfold n2. pose proof (Nat.mod_upper_bound (List.length l / 2) 8).
        pose proof (Nat.div_mod_eq (List.length l) 2).
        pose proof (Nat.mod_upper_bound (List.length l) 2). lia. }
      rewrite (IH f2 (firstn n2 l)), (IH f2 (skipn n2 l)); try reflexivity;
        rewrite ?length_firstn, ?length_skipn; lia.
Qed.

Lemma Qabs_sum_cons (q : Q) (qs : list Q) : Qabs_sum (q :: qs) = Qabs q + Qabs_sum qs.
Proof. reflexivity. Qed.

Lemma pow2_53 : pow2 53 == inject_Z (2 ^ 53).
Proof. apply pow2_Z. lia. Qed.

Lemma float_of_nat_exact (n : nat) :
  (Z.of_nat n < 2 ^ 53)%Z -> float_of_nat n == inject_Z (Z.of_nat n).
Proof.
  intros H. unfold float_of_nat.
  apply (round64_exact 0 (Z.of_nat n)); [lia | |].
  - change (pow2 0) with 1. ring.
  - rewrite Qabs_pos by (change 0 with (inject_Z 0); rewrite <- Zle_Qle; lia).
    change (0 + 53)%Z with 53%Z. rewrite pow2_53. rewrite <- Zlt_Qlt. exact H.
Qed.

(** Converting numbers that are on a grid and small enough changes
    nothing. *)
Lemma map_round64_exact (g : Z) (qs : list Q) :
  (-1074 <= g)%Z -> Forall (on_grid g) qs -> Qabs_sum qs < pow2 (g + 53) ->
  Forall (on_grid g) (map round64 qs) /\
  Qabs_sum (map round64 qs) == Qabs_sum qs /\
  Qsum (map round64 qs) == Qsum qs.
Proof.
  intros Hg H. induction H as [|q qs Hq _ IH]; intros Hlt.
  - split; [constructor|]. split; reflexivity.
  - rewrite Qabs_sum_cons in Hlt.
    pose proof (Qabs_sum_nonneg qs) as Nq. pose proof (Qabs_nonneg q) as Na.
    assert (E : round64 q == q).
    { apply (round_within g Hg (Qabs q)); [apply within_elem; exact Hq | lra]. }
    destruct IH as [F [A S]]; [lra|].
    cbn [map]. rewrite Qabs_sum_cons. cbn [Qsum]. split; [|split].
    + constructor; [|exact F]. apply (on_grid_wd g q); [symmetry; exact E | exact Hq].
    + rewrite E, A. reflexivity.
    + rewrite E, S. reflexivity.
Qed.




Lemma kahan_sum_exact (g : Z) (qs : list Q) :
  (-1074 <= g)%Z -> Forall (on_grid g) qs -> Qabs_sum qs < pow2 (g + 53) ->
  kahan_sum qs == Qsum qs.
Proof.
  intros Hg H Hlt. unfold kahan_sum.
  rewrite (kahan_exact g Hg qs H 0 0 0).
  - ring.
  - split; [apply on_grid_0 | apply Qle_refl].
  - reflexivity.
  - lra.
Qed.

(** The same of the mean of a group. *)
Lemma group_mean_exact (vs : Series) :
  exact_sums (numbers vs) -> group_mean vs = mean64 (numbers vs).
Proof.
  intros [g [[Hg _] [Hgrid [Hlt Hlen]]]]. unfold group_mean, mean64, arithmetic_mean.
  destruct (map_round64_exact g _ Hg Hgrid Hlt) as [F [A S]].
  assert (E : kahan_sum (map round64 (numbers vs)) == Qsum (numbers vs)).
  { rewrite (kahan_sum_exact g _ Hg F) by (rewrite A; exact Hlt). exact S. }
  pose proof (float_of_nat_exact _ Hlen) as En.
  destruct (numbers vs) as [|q qs]; [reflexivity|].
  cbn [List.length] in *. f_equal. unfold fdiv. apply round64_wd.
  rewrite E, En. reflexivity.
Qed.





End MeanFacts.

Lemma forallb_Forall {A : Type} (p : A -> bool) (l : list A) :
  Forall (fun a => p a = true) l -> forallb p l = true.
Proof. intros H. apply forallb_forall. apply Forall_forall. exact H. Qed.

Lemma Series_mean_ok (s : Series) :
  Forall (fun c => numeric c = true) s ->
  Series_mean s = Ok (nanmean (map present s)).
Proof.
  intros H. unfold Series_mean. rewrite (forallb_Forall _ _ H). reflexivity.
Qed.

Lemma column_mean_ok (fv : DataFrame) (name : string) :
  numeric_column fv name ->
  (s <- getitem fv name ;; Series_mean s) = Ok (nanmean (map present (column fv name))).
Proof.
  intros [Hc Hn]. rewrite (getitem_ok _ _ Hc). unfold column. simpl.
  apply Series_mean_ok. rewrite Forall_map. exact Hn.
Qed.

Lemma numeric_column_view (df fv : DataFrame) (name : string) :
  columns fv = columns df -> incl (rows fv) (rows df) ->
  numeric_column df name -> numeric_column fv name.
Proof.
  intros Hc Hi [Hh Hn]. unfold numeric_column, has_column, cell_at in *.
  rewrite Hc. split; [assumption|].
  rewrite Forall_forall in *. intros r Hin. apply Hn, Hi, Hin.
Qed.


Lemma passes_rating (df : DataFrame) (sel : selection) (r : row) :
  passes df sel r = true -> isna (cell_at df "Driver Rating" r) = false.
Proof.
  unfold passes. destruct (cell_at df "Driver Rating" r); simpl; auto.
Qed.

(** ** The KPIs *)




Lemma sample_table_times : numeric_column sample_table "Delivery Time(Minutes)".
Proof. unfold numeric_column, has_column. simpl. split; [tauto | repeat constructor]. Qed.



(** ** Group keys: properties *)

Lemma cell_eqb_Date (c : cell) (t : Z) : cell_eqb c (Date t) = true <-> c = Date t.
Proof.
  destruct c; simpl; split; try discriminate.
  - intros H. apply Z.eqb_eq in H. congruence.
  - intros H. inversion H. apply Z.eqb_refl.
Qed.

Lemma unique_NoDup (s : Series) : NoDup (unique s).
Proof.
  induction s as [|c s IH]; simpl; constructor.
  - intros H. apply filter_In in H. destruct H as [_ H].
    rewrite cell_eqb_refl in H. discriminate.
  - apply NoDup_filter. exact IH.
Qed.

Lemma unique_In_Date (s : Series) (t : Z) : In (Date t) (unique s) <-> In (Date t) s.
Proof.
  split; [apply unique_incl|]. intros H.
  destruct (unique_member s _ H) as [v [Hv E]].
  rewrite cell_eqb_sym in E. apply cell_eqb_Date in E. subst. exact Hv.
Qed.

Lemma dropna_In (s : Series) (c : cell) : In c (dropna s) <-> In c s /\ isna c = false.
Proof. unfold dropna. rewrite filter_In, negb_true_iff. reflexivity. Qed.

Lemma datetime_dropna (s : Series) :
  Forall (fun c => datetime c = true) s -> Forall is_date (unique (dropna s)).
Proof.
  rewrite !Forall_forall. intros H c Hc.
  apply unique_incl, dropna_In in Hc. destruct Hc as [Hin Hna].
  specialize (H c Hin). destruct c; simpl in *; try discriminate.
  eexists; reflexivity.
Qed.

Lemma homogeneous_dates (l : list cell) : Forall is_date l -> homogeneous l = true.
Proof.
  destruct l as [|k l]; [reflexivity|]. intros H. inversion H as [|? ? [t ->] Hl]; subst.
  simpl. apply forallb_forall. intros x Hx.
  rewrite Forall_forall in Hl. destruct (Hl x Hx) as [u ->]. reflexivity.
Qed.

Lemma insert_key_perm (k : cell) (l : list cell) : Permutation (insert_key k l) (k :: l).
Proof.
  induction l as [|x l IH]; simpl; [reflexivity|].
  destruct (cell_leb k x); [reflexivity|].
  rewrite IH. apply perm_swap.
Qed.

Lemma sort_keys_perm (l : list cell) : Permutation (sort_keys l) l.
Proof.
  induction l as [|k l IH]; simpl; [reflexivity|].
  rewrite insert_key_perm. constructor. exact IH.
Qed.

Lemma date_le_trans (a b c : cell) : date_le a b -> date_le b c -> date_le a c.
Proof. destruct a, b, c; simpl; try tauto. apply Z.le_trans. Qed.

Lemma insert_key_sorted (k : cell) (l : list cell) :
  is_date k -> Forall is_date l ->
  StronglySorted date_le l -> StronglySorted date_le (insert_key k l).
Proof.
  intros [s ->] Hd Hs. induction Hs as [|x l Hs IH Hx]; simpl.
  - repeat constructor.
  - inversion Hd as [|? ? [t ->] Hd']; subst. simpl.
    destruct (Z.leb s t) eqn:E.
    + constructor; [constructor; assumption|].
      apply Z.leb_le in E. constructor; [exact E|].
      eapply Forall_impl; [|exact Hx]. intros c Hc.
      apply (date_le_trans (Date s) (Date t)); assumption.
    + constructor; [apply IH; assumption|].
      apply Z.leb_gt in E.
      apply (Permutation_Forall (x := Date s :: l));
        [symmetry; apply insert_key_perm|].
      constructor; [simpl; lia | assumption].
Qed.

Lemma sort_keys_sorted (l : list cell) :
  Forall is_date l -> StronglySorted date_le (sort_keys l).
Proof.
  induction l as [|k l IH]; simpl; intros H; [constructor|].
  inversion H; subst. apply insert_key_sorted; auto.
  apply (Permutation_Forall (x := l)); [symmetry; apply sort_keys_perm | assumption].
Qed.

Lemma sorted_strict (l : list cell) :
  NoDup l -> StronglySorted date_le l -> StronglySorted date_lt l.
Proof.
  intros Hn Hs. induction Hs as [|x l Hs IH Hx]; constructor.
  - inversion Hn; auto.
  - inversion Hn as [|? ? Hni _]; subst.
    rewrite Forall_forall in *. intros c Hc. specialize (Hx c Hc).
    destruct x as [| |s|], c as [| |t|]; simpl in *; try tauto.
    assert (s <> t) by (intros ->; contradiction). lia.
Qed.

Lemma sort_keys_already (l : list cell) :
  StronglySorted date_le l -> sort_keys l = l.
Proof.
  intros Hs. induction Hs as [|x l Hs IH Hx]; simpl; [reflexivity|].
  rewrite IH. destruct l as [|y l]; [reflexivity|]. simpl.
  inversion Hx as [|? ? Hxy _]; subst.
  destruct x as [| |s|], y as [| |t|]; simpl in *; try tauto.
  apply Z.leb_le in Hxy. rewrite Hxy. reflexivity.
Qed.

Lemma strict_le (l : list cell) : StronglySorted date_lt l -> StronglySorted date_le l.
Proof.
  intros Hs. induction Hs as [|x l Hs IH Hx]; constructor; [assumption|].
  eapply Forall_impl; [|exact Hx]. intros c.
  destruct x, c; simpl; try tauto. lia.
Qed.

Lemma group_keys_dates (ks : Series) :
  Forall (fun c => datetime c = true) ks ->
  group_keys ks = Ok (sort_keys (unique (dropna ks))).
Proof.
  intros H. unfold group_keys.
  rewrite (homogeneous_dates _ (datetime_dropna _ H)). reflexivity.
Qed.

Lemma group_values_map {A R : Type} (f : R -> cell) (g : R -> A) (rs : list R) (k : cell) :
  group_values (map f rs) (map g rs) k = map g (filter (fun r => cell_eqb (f r) k) rs).
Proof.
  unfold group_values. induction rs as [|r rs IH]; simpl; [reflexivity|].
  destruct (cell_eqb (f r) k); simpl; rewrite IH; reflexivity.
Qed.

(** ** Group by date: properties *)

Lemma group_means_numeric (ks vs : Series) (keys : list cell) :
  Forall (fun c => numeric c = true) vs ->
  group_means ks vs keys
  = Ok (map (fun k => [k; group_mean (group_values ks vs k)]) keys).
Proof.
  intros H. unfold group_means. rewrite (forallb_Forall _ _ H). reflexivity.
Qed.

Lemma groupby_mean_ok (fv : DataFrame) (col : string) :
  datetime_column fv "Date" -> numeric_column fv col -> col <> "Date" ->
  groupby_mean fv "Date" col =
    Ok (mkFrame ["Date"; col]
          (range_rows 0
             (map (fun k => [k; group_mean
                                   (map (cell_at fv col)
                                      (filter (fun r => cell_eqb (cell_at fv "Date" r) k)
                                              (rows fv)))])
                  (sort_keys (unique (dropna (column fv "Date"))))))).
Proof.
  intros [Hd Hdt] [Hc Hn] Hne. unfold groupby_mean.
  rewrite (getitem_ok _ _ Hd), (getitem_ok _ _ Hc). cbn [bind].
  rewrite group_keys_dates by (rewrite Forall_map; exact Hdt). cbn [bind].
  rewrite group_means_numeric by (rewrite Forall_map; exact Hn). cbn [bind].
  destruct (String.eqb "Date" col) eqn:E.
  { apply String.eqb_eq in E. congruence. }
  do 3 f_equal. apply map_ext. intros k.
  rewrite group_values_map. reflexivity.
Qed.

Lemma keys_of_rows (m : cell -> cell) (keys : list cell) (n : nat) :
  map (iat 0) (range_rows n (map (fun k => [k; m k]) keys)) = keys.
Proof.
  revert n; induction keys as [|k keys IH]; simpl; intros n; [reflexivity|].
  rewrite IH. reflexivity.
Qed.



Lemma group_keys_In (fv : DataFrame) (t : Z) :
  In (Date t) (sort_keys (unique (dropna (column fv "Date")))) <->
  In (Date t) (column fv "Date").
Proof.
  split; intros H.
  - apply (Permutation_in _ (sort_keys_perm _)) in H.
    apply unique_In_Date, dropna_In in H. tauto.
  - apply (Permutation_in _ (Permutation_sym (sort_keys_perm _))).
    apply unique_In_Date, dropna_In. auto.
Qed.

Lemma group_keys_NoDup (s : Series) : NoDup (sort_keys (unique (dropna s))).
Proof.
  apply (Permutation_NoDup (Permutation_sym (sort_keys_perm _))), unique_NoDup.
Qed.

Lemma range_rows_In (b : list (list cell)) (n : nat) (r : row) :
  In r (range_rows n b) -> In (cells r) b.
Proof.
  revert n; induction b as [|cs b IH]; simpl; intros n H; [assumption|].
  destruct H as [<-|H]; [left; reflexivity | right; eapply IH; eassumption].
Qed.




Lemma sample_table_dates : datetime_column sample_table "Date".
Proof. unfold datetime_column, has_column. simpl. split; [tauto | repeat constructor]. Qed.

Lemma sample_table_ratings : numeric_column sample_table "Driver Rating".
Proof. unfold numeric_column, has_column. simpl. split; [tauto | repeat constructor]. Qed.


(** C6, as stated, fails: the view of the sample table shows the date 20
    before the date 10, and the aggregation lists 10 before 20. *)
Lemma df_daily_not_first_appearance :
  (exists fv out,
      filtered_df sample_table full_selection = Ok fv /\
      df_daily fv = Ok out /\
      unique (dropna (column fv "Date")) = [Date 20; Date 10] /\
      column out "Date" = [Date 10; Date 20]) /\
  ~ keeps_first_appearance_order.
Proof.
  assert (H : exists fv out,
      filtered_df sample_table full_selection = Ok fv /\
      df_daily fv = Ok out /\
      unique (dropna (column fv "Date")) = [Date 20; Date 10] /\
      column out "Date" = [Date 10; Date 20]).
  { eexists. eexists. split; [vm_compute; reflexivity|].
    split; [vm_compute; reflexivity|]. split; reflexivity. }
  split; [exact H|]. intros K.
  destruct H as [fv [out [Hf [Hd [Hu Hc]]]]].
  specialize (K _ _ _ _ Hf Hd). rewrite Hu, Hc in K. discriminate K.
Qed.

(** C6, amended.  The rows of the aggregation of the rating by date are
    in ascending order of date, each date once.  The order is made by the
    grouping itself, which sorts its keys; nothing sorts the rows after
    it.  The dates are those the view shows, and they come in the order of
    their first appearance in the view exactly when that order is already
    ascending. *)
Theorem df_daily_sorted (fv : DataFrame) :
  datetime_column fv "Date" ->
  numeric_column fv "Driver Rating" ->
  exists out,
    df_daily fv = Ok out /\
    StronglySorted date_lt (column out "Date") /\
    Permutation (column out "Date") (unique (dropna (column fv "Date"))) /\
    (column out "Date" = unique (dropna (column fv "Date")) <->
     StronglySorted date_lt (unique (dropna (column fv "Date")))).
Proof.
  intros Hd Hr. eexists. split; [apply groupby_mean_ok; try assumption; discriminate|].
  assert (Hk : forall m keys,
             column (mkFrame ["Date"; "Driver Rating"]
                       (range_rows 0 (map (fun k => [k; m k]) keys))) "Date" = keys).
  { intros m keys. unfold column, cell_at. cbn [columns rows get_loc String.eqb Ascii.eqb Bool.eqb].
    apply keys_of_rows. }
  rewrite Hk.
  assert (Hdates : Forall is_date (unique (dropna (column fv "Date")))).
  { apply datetime_dropna. unfold column. rewrite Forall_map. apply Hd. }
  assert (Hs : StronglySorted date_lt (sort_keys (unique (dropna (column fv "Date"))))).
  { apply sorted_strict; [apply group_keys_NoDup | apply sort_keys_sorted, Hdates]. }
  split; [exact Hs|]. split; [apply sort_keys_perm|].
  split.
  - intros E. rewrite <- E. exact Hs.
  - intros H. apply sort_keys_already, strict_le, H.
Qed.

Lemma df_daily_sorted_witness :
  exists out,
    df_daily sample_table = Ok out /\
    StronglySorted date_lt (column out "Date") /\
    column out "Date" = [Date 10; Date 20].
Proof.
  destruct (df_daily_sorted sample_table sample_table_dates sample_table_ratings)
    as [out [Ho [Hs _]]].
  exists out. split; [exact Ho|]. split; [exact Hs|].
  vm_compute in Ho. inversion Ho. reflexivity.
Defined.

(** ** The script on the sample tables *)

Example load_data_missing_file : load_data empty_fs = Raise FileNotFoundError.
Proof. reflexivity. Qed.

Example filtered_df_text_rating :
  filtered_df text_rating_table full_selection = Raise TypeError.
Proof. reflexivity. Qed.

Example filtered_df_missing_column :
  filtered_df (mkFrame ["Driver Rating"; "Date"] []) full_selection
  = Raise (KeyError "Customer Type").
Proof. reflexivity. Qed.

Example df_daily_sample :
  df_daily sample_table =
    Ok (mkFrame ["Date"; "Driver Rating"]
          [mkRow 0 [Date 10; Num 2]; mkRow 1 [Date 20; Num (17 # 4)]]).
Proof. vm_compute. reflexivity. Qed.

(** The only row on the date 10 has no delivery time: the mean of that
    date is not-a-number. *)
Example df_time_sample :
  df_time sample_table =
    Ok (mkFrame ["Date"; "Delivery Time(Minutes)"]
          [mkRow 0 [Date 10; NaN]; mkRow 1 [Date 20; Num 35]]).
Proof. vm_compute. reflexivity. Qed.

Example kpis_sample :
  avg_rating sample_table = Ok (Num (7 # 2)) /\
  avg_time sample_table = Ok (Num 35) /\
  avg_value sample_table = Ok (Num 50).
Proof. repeat split; vm_compute; reflexivity. Qed.

Example kpis_empty_view :
  avg_rating (mkFrame (columns sample_table) []) = Ok NaN /\
  avg_time (mkFrame (columns sample_table) []) = Ok NaN /\
  avg_value (mkFrame (columns sample_table) []) = Ok NaN.
Proof. repeat split; reflexivity. Qed.

(** The binary64 tenth, 3602879701896397 / 2^55, three times: the sum is
    rounded, and the mean is the binary64 value after the tenth,
    0.10000000000000002. *)
Example nanmean_tenths :
  nanmean [Some (3602879701896397 # 36028797018963968)%Q;
           Some (3602879701896397 # 36028797018963968)%Q;
           Some (3602879701896397 # 36028797018963968)%Q]
  = Num (7205759403792795 # 72057594037927936).
Proof. vm_compute. reflexivity. Qed.

(** A text in a row without a date is in no group and does not disturb
    the aggregation. *)
Example df_time_undated_text :
  df_time (mkFrame ["Date"; "Delivery Time(Minutes)"]
             [mkRow 0 [Date 10; Num 30]; mkRow 1 [NaN; Str "late"]])
  = Ok (mkFrame ["Date"; "Delivery Time(Minutes)"] [mkRow 0 [Date 10; Num 30]]).
Proof. vm_compute. reflexivity. Qed.

(** A text in a row with a date raises when its group is averaged. *)
Example df_time_dated_text :
  df_time (mkFrame ["Date"; "Delivery Time(Minutes)"]
             [mkRow 0 [Date 10; Num 30]; mkRow 1 [Date 20; Str "late"]])
  = Raise TypeError.
Proof. vm_compute. reflexivity. Qed.

(** Dates of mixed kinds: the timestamps in their order, then the
    texts. *)
Example df_time_mixed_keys :
  df_time (mkFrame ["Date"; "Delivery Time(Minutes)"]
             [mkRow 0 [Str "soon"; Num 30]; mkRow 1 [Date 20; Num 40];
              mkRow 2 [Date 10; Num 50]])
  = Ok (mkFrame ["Date"; "Delivery Time(Minutes)"]
          [mkRow 0 [Date 10; Num 50]; mkRow 1 [Date 20; Num 40];
           mkRow 2 [Str "soon"; Num 30]]).
Proof. vm_compute. reflexivity. Qed.

Example run_narrow_sheet (select_dtypes_number corr : DataFrame -> DataFrame)
    (describe : DataFrame -> result DataFrame) :
  run select_dtypes_number corr describe narrow_fs full_selection
  = (Raise (KeyError "Customer Type"), []).
Proof. reflexivity. Qed.

(** ** The filter: outcomes, order of rows, composition *)

Lemma compare_scalar_raise (op : Q -> bool) (s : Series) :
  Exists (fun c => numeric c = false) s ->
  mapM (compare_scalar op) s = Raise TypeError.
Proof.
  induction s as [|c s IH]; intros H; [inversion H|]. simpl.
  destruct c; simpl; try reflexivity.
  - rewrite IH; [reflexivity|]. inversion H; subst; [discriminate | assumption].
  - rewrite IH; [reflexivity|]. inversion H; subst; [discriminate | assumption].
Qed.

Lemma numeric_dec (s : Series) :
  Forall (fun c => numeric c = true) s \/ Exists (fun c => numeric c = false) s.
Proof.
  induction s as [|c s [IH|IH]].
  - left; constructor.
  - destruct (numeric c) eqn:E; [left; constructor; assumption | right; left; assumption].
  - right; right; assumption.
Qed.

Lemma filtered_df_no_rating (df : DataFrame) (sel : selection) :
  ~ has_column df "Driver Rating" ->
  filtered_df df sel = Raise (KeyError "Driver Rating").
Proof.
  intros H. unfold filtered_df. rewrite (getitem_raise _ _ H). reflexivity.
Qed.

Lemma filtered_df_text_rating_raises (df : DataFrame) (sel : selection) :
  has_column df "Driver Rating" ->
  Exists (fun r => numeric (cell_at df "Driver Rating" r) = false) (rows df) ->
  filtered_df df sel = Raise TypeError.
Proof.
  intros Hc He. unfold filtered_df, Series_ge. rewrite (getitem_ok _ _ Hc). cbn [bind].
  rewrite compare_scalar_raise; [reflexivity|].
  apply Exists_exists in He. destruct He as [r [Hr Hn]].
  apply Exists_exists. exists (cell_at df "Driver Rating" r).
  split; [apply in_map; exact Hr | exact Hn].
Qed.

Lemma filtered_df_no_customer (df : DataFrame) (sel : selection) :
  numeric_column df "Driver Rating" -> ~ has_column df "Customer Type" ->
  filtered_df df sel = Raise (KeyError "Customer Type").
Proof.
  intros [Hc Hn] Ht. unfold filtered_df, Series_ge, Series_le.
  rewrite (getitem_ok _ _ Hc). cbn [bind].
  rewrite !(mapM_Forall _ _ _ (compare_scalar_ok _))
    by (rewrite Forall_map; exact Hn). cbn [bind].
  rewrite (getitem_raise _ _ Ht). reflexivity.
Qed.

Lemma filtered_df_no_payment (df : DataFrame) (sel : selection) :
  numeric_column df "Driver Rating" -> has_column df "Customer Type" ->
  ~ has_column df "Payment Method" ->
  filtered_df df sel = Raise (KeyError "Payment Method").
Proof.
  intros [Hc Hn] Ht Hp. unfold filtered_df, Series_ge, Series_le.
  rewrite (getitem_ok _ _ Hc). cbn [bind].
  rewrite !(mapM_Forall _ _ _ (compare_scalar_ok _))
    by (rewrite Forall_map; exact Hn). cbn [bind].
  rewrite (getitem_ok _ _ Ht). cbn [bind].
  rewrite (getitem_raise _ _ Hp). reflexivity.
Qed.

Lemma has_column_dec (df : DataFrame) (name : string) :
  has_column df name \/ ~ has_column df name.
Proof.
  unfold has_column. destruct (in_dec string_dec name (columns df)); auto.
Qed.

(** A table is filterable, or the filter raises one exception on it
    whatever the widgets say. *)
Lemma filtered_df_cases (df : DataFrame) :
  filterable df \/ exists e, forall sel, filtered_df df sel = Raise e.
Proof.
  destruct (has_column_dec df "Driver Rating") as [Hr|Hr].
  2:{ right. eexists. intros sel. apply filtered_df_no_rating, Hr. }
  destruct (numeric_dec (column df "Driver Rating")) as [Hn|Hn].
  2:{ right. eexists. intros sel. apply filtered_df_text_rating_raises; [exact Hr|].
      unfold column in Hn. apply Exists_exists in Hn. destruct Hn as [c [Hc Hn]].
      apply in_map_iff in Hc. destruct Hc as [r [<- Hin]].
      apply Exists_exists. exists r. auto. }
  assert (Hnum : numeric_column df "Driver Rating").
  { split; [exact Hr|]. unfold column in Hn. rewrite Forall_map in Hn. exact Hn. }
  destruct (has_column_dec df "Customer Type") as [Ht|Ht].
  2:{ right. eexists. intros sel. apply filtered_df_no_customer; assumption. }
  destruct (has_column_dec df "Payment Method") as [Hp|Hp].
  2:{ right. eexists. intros sel. apply filtered_df_no_payment; assumption. }
  left. repeat split; try assumption. apply Hnum.
Qed.

(** X1.  Whether the filter returns depends on the table alone, never on
    the widgets: it returns exactly on the tables that have the three
    filter columns with numbers or missing values under [Driver Rating].
    Otherwise it raises for the first defect in the order in which the
    script evaluates the mask: a missing [Driver Rating] column, a text or
    a timestamp under it, a missing [Customer Type] column, a missing
    [Payment Method] column. *)
Theorem filtered_df_outcome (df : DataFrame) (sel : selection) :
  (filterable df <-> exists fv, filtered_df df sel = Ok fv) /\
  (~ has_column df "Driver Rating" ->
   filtered_df df sel = Raise (KeyError "Driver Rating")) /\
  (has_column df "Driver Rating" ->
   Exists (fun r => numeric (cell_at df "Driver Rating" r) = false) (rows df) ->
   filtered_df df sel = Raise TypeError) /\
  (numeric_column df "Driver Rating" -> ~ has_column df "Customer Type" ->
   filtered_df df sel = Raise (KeyError "Customer Type")) /\
  (numeric_column df "Driver Rating" -> has_column df "Customer Type" ->
   ~ has_column df "Payment Method" ->
   filtered_df df sel = Raise (KeyError "Payment Method")).
Proof.
  split; [|split; [|split; [|split]]].
  - split.
    + intros Hf. eexists. apply filtered_df_ok. exact Hf.
    + intros [fv H]. exact (filtered_df_inv _ _ _ H).
  - apply filtered_df_no_rating.
  - apply filtered_df_text_rating_raises.
  - apply filtered_df_no_customer.
  - apply filtered_df_no_payment.
Qed.

Lemma sorted_filter {A B : Type} (R : B -> B -> Prop) (f : A -> B) (p : A -> bool)
    (l : list A) :
  StronglySorted R (map f l) -> StronglySorted R (map f (filter p l)).
Proof.
  induction l as [|a l IH]; simpl; intros H; [constructor|].
  inversion H as [|? ? Hs Hall]; subst.
  destruct (p a); simpl; [|auto]. constructor; [auto|].
  rewrite Forall_forall in *. intros b Hb. apply Hall.
  apply in_map_iff in Hb. destruct Hb as [x [<- Hx]].
  apply in_map, (proj1 (filter_In _ _ _) Hx).
Qed.

Lemma seq_sorted (start len : nat) : StronglySorted lt (seq start len).
Proof.
  revert start; induction len as [|len IH]; intros start; simpl; constructor.
  - apply IH.
  - apply Forall_forall. intros x Hx. apply in_seq in Hx. lia.
Qed.

(** X2.  The view of a loaded table keeps the rows in sheet order under
    their sheet positions: the index labels of the view are strictly
    increasing, each is the 0-based position of a body row of the sheet,
    every row of the view is a row of the table and the view is never
    longer than the table. *)
Theorem view_keeps_sheet_order (fs : filesystem) (df fv : DataFrame) (sel : selection) :
  load_data fs = Ok df ->
  filtered_df df sel = Ok fv ->
  StronglySorted lt (map label (rows fv)) /\
  (forall r, In r (rows fv) -> In r (rows df) /\ (label r < List.length (rows df))%nat) /\
  (List.length (rows fv) <= List.length (rows df))%nat.
Proof.
  intros Hl Hf. destruct (load_data_inv _ _ Hl) as [wb [sh [_ [_ Hdf]]]].
  destruct (filtered_df_rows _ _ _ Hf) as [_ Hr].
  assert (Hlab : map label (rows df) = seq 0 (List.length (rows df))).
  { subst df. unfold iloc_cols. cbn [rows]. rewrite map_map. cbn [label].
    rewrite range_rows_label, length_map.
    rewrite <- (length_map label), range_rows_label, length_seq. reflexivity. }
  rewrite Hr. split; [|split].
  - apply sorted_filter. rewrite Hlab. apply seq_sorted.
  - intros r Hin. apply filter_In in Hin. destruct Hin as [Hin _].
    split; [exact Hin|].
    assert (Hi : In (label r) (seq 0 (List.length (rows df)))).
    { rewrite <- Hlab. apply in_map. exact Hin. }
    apply in_seq in Hi. lia.
  - apply filter_length_le.
Qed.

Lemma view_keeps_sheet_order_witness :
  exists fv,
    filtered_df sample_table narrow_selection = Ok fv /\
    StronglySorted lt (map label (rows fv)) /\
    (List.length (rows fv) <= List.length (rows sample_table))%nat.
Proof.
  eexists. split; [apply filtered_df_ok, sample_table_filterable|].
  destruct (view_keeps_sheet_order wide_fs sample_table _ narrow_selection eq_refl
              (filtered_df_ok _ _ sample_table_filterable)) as [Hs [_ Hl]].
  split; assumption.
Defined.

Lemma filter_all {A : Type} (p : A -> bool) (l : list A) :
  filter p l = l <-> Forall (fun a => p a = true) l.
Proof.
  induction l as [|a l IH]; simpl.
  - split; [constructor | reflexivity].
  - destruct (p a) eqn:E; split; intros H.
    + inversion H as [H']. rewrite H'. constructor; [exact E | apply IH; exact H'].
    + inversion H; subst. f_equal. apply IH. assumption.
    + exfalso. pose proof (filter_length_le p l) as Hl. rewrite H in Hl. simpl in Hl. lia.
    + inversion H; congruence.
Qed.

Lemma filter_both {A : Type} (f g : A -> bool) (l : list A) :
  filter f (filter g l) = filter (fun a => g a && f a) l.
Proof.
  induction l as [|a l IH]; simpl; [reflexivity|].
  destruct (g a); simpl; [destruct (f a)|]; rewrite IH; reflexivity.
Qed.

Lemma default_selection_inv (df : DataFrame) (sel0 : selection) :
  default_selection df = Ok sel0 ->
  has_column df "Customer Type" /\ has_column df "Payment Method" /\
  sel0 = mkSelection 1 5 (unique (column df "Customer Type"))
                         (unique (column df "Payment Method")).
Proof.
  unfold default_selection. intros H.
  destruct (getitem df "Customer Type") as [ct|] eqn:Hc; simpl in H; [|discriminate].
  destruct (getitem df "Payment Method") as [pm|] eqn:Hp; simpl in H; [|discriminate].
  apply getitem_inv in Hc, Hp. destruct Hc as [Hc ->], Hp as [Hp ->].
  inversion H. auto.
Qed.

Lemma passes_default (df : DataFrame) (r : row) :
  In r (rows df) ->
  (passes df (mkSelection 1 5 (unique (column df "Customer Type"))
                              (unique (column df "Payment Method"))) r = true
   <-> in_range 1 5 (cell_at df "Driver Rating" r)).
Proof.
  intros Hin. rewrite passes_iff. cbn [min_rating max_rating customer_type payment_method].
  split; [tauto|]. intros H. split; [exact H|].
  split; apply unique_member; unfold column; apply in_map; exact Hin.
Qed.

(** X3.  With the widgets untouched the view is not always the whole
    table: it holds exactly the rows whose rating is a number from 1 to 5.
    A row whose rating is missing is never shown, and the view is the whole
    table exactly when every rating is a number from 1 to 5.  A missing
    customer type or payment method does not remove a row, since the
    options offered include the missing value. *)
Theorem default_view (df : DataFrame) (sel0 : selection) (fv : DataFrame) :
  default_selection df = Ok sel0 ->
  filtered_df df sel0 = Ok fv ->
  (forall r, In r (rows fv) <->
             In r (rows df) /\ in_range 1 5 (cell_at df "Driver Rating" r)) /\
  (forall r, In r (rows fv) -> isna (cell_at df "Driver Rating" r) = false) /\
  (rows fv = rows df <->
   Forall (fun r => in_range 1 5 (cell_at df "Driver Rating" r)) (rows df)).
Proof.
  intros Hd Hf. destruct (default_selection_inv _ _ Hd) as [_ [_ ->]].
  destruct (filtered_df_rows _ _ _ Hf) as [_ Hr]. rewrite Hr.
  split; [|split].
  - intros r. rewrite filter_In. split.
    + intros [Hin Hp]. split; [exact Hin|]. apply (passes_default df r Hin), Hp.
    + intros [Hin Hp]. split; [exact Hin|]. apply (passes_default df r Hin), Hp.
  - intros r Hin. apply filter_In in Hin. eapply passes_rating, (proj2 Hin).
  - rewrite filter_all, !Forall_forall. split; intros H r Hin.
    + apply (passes_default df r Hin), H, Hin.
    + apply (passes_default df r Hin), H, Hin.
Qed.

Lemma default_view_witness :
  exists sel0 fv,
    default_selection sample_table = Ok sel0 /\
    filtered_df sample_table sel0 = Ok fv /\
    rows fv = rows sample_table.
Proof.
  eexists. eexists. split; [reflexivity|].
  split; [apply filtered_df_ok, sample_table_filterable|].
  apply (default_view sample_table _ _ eq_refl (filtered_df_ok _ _ sample_table_filterable)).
  simpl. repeat constructor; eexists; (split; [reflexivity|]); split; discriminate.
Defined.

Lemma in_range_same (lo hi lo' hi' : Q) (c : cell) :
  (lo == lo')%Q -> (hi == hi')%Q -> in_range lo hi c -> in_range lo' hi' c.
Proof.
  intros El Eh [q [-> [H1 H2]]]. exists q. split; [reflexivity|].
  rewrite <- El, <- Eh. auto.
Qed.

Lemma passes_same (df : DataFrame) (s1 s2 : selection) (r : row) :
  same_selection s1 s2 -> passes df s1 r = passes df s2 r.
Proof.
  intros [El [Eh [C12 [C21 [P12 P21]]]]]. apply eq_true_iff_eq. rewrite !passes_iff.
  split; intros [H1 [H2 H3]]; (split; [|split]); auto.
  - eapply in_range_same; eassumption.
  - eapply in_range_same; [symmetry; exact El | symmetry; exact Eh | exact H1].
Qed.

(** X4.  The two multiselects act as sets and the slider ends as numbers:
    selections that accept the same values, whatever the order in which
    the options were picked and however a bound is written, give the same
    outcome of the filter, the same view or the same exception. *)
Theorem filtered_df_same_selection (df : DataFrame) (s1 s2 : selection) :
  same_selection s1 s2 -> filtered_df df s1 = filtered_df df s2.
Proof.
  intros Hs. destruct (filtered_df_cases df) as [Hf|[e He]].
  - rewrite !(filtered_df_ok _ _ Hf). do 2 f_equal.
    apply filter_ext. intros r. apply passes_same, Hs.
  - rewrite !He. reflexivity.
Qed.

Lemma filtered_df_same_selection_witness :
  same_selection full_selection permuted_selection /\
  filtered_df sample_table full_selection = filtered_df sample_table permuted_selection.
Proof.
  assert (Hs : same_selection full_selection permuted_selection).
  { unfold same_selection, subset, member. simpl.
    split; [reflexivity|]. split; [reflexivity|].
    repeat split; intros c [v [Hv E]]; exists v; (split; [tauto | exact E]). }
  split; [exact Hs|]. exact (filtered_df_same_selection sample_table _ _ Hs).
Defined.

(** X5.  Filtering a view again with a second selection gives the rows of
    the table that pass both selections, and the order of the two
    filterings does not matter; neither step can raise once the first has
    returned. *)
Theorem filter_twice (df : DataFrame) (s1 s2 : selection) (v1 : DataFrame) :
  filtered_df df s1 = Ok v1 ->
  exists v12 v2 v21,
    filtered_df v1 s2 = Ok v12 /\
    filtered_df df s2 = Ok v2 /\
    filtered_df v2 s1 = Ok v21 /\
    v12 = v21 /\
    columns v12 = columns df /\
    rows v12 = filter (fun r => passes df s1 r && passes df s2 r) (rows df).
Proof.
  intros H1. pose proof (filtered_df_inv _ _ _ H1) as Hf.
  assert (Hview : forall s t,
             filtered_df (mkFrame (columns df) (filter (passes df s) (rows df))) t
             = Ok (mkFrame (columns df)
                     (filter (fun r => passes df s r && passes df t r) (rows df)))).
  { intros s t. rewrite filtered_df_ok.
    - cbn [columns rows]. do 2 f_equal. rewrite <- filter_both.
      apply filter_ext. intros r. apply passes_columns. reflexivity.
    - apply (filterable_columns df); [reflexivity | | exact Hf].
      cbn [rows]. intros r Hr. apply filter_In in Hr. tauto. }
  rewrite (filtered_df_ok _ _ Hf) in H1. inversion H1; subst v1; clear H1.
  eexists. eexists. eexists.
  split; [apply Hview|]. split; [apply filtered_df_ok, Hf|].
  split; [apply Hview|]. cbn [columns rows].
  split; [|split; reflexivity]. f_equal.
  apply filter_ext. intros r. apply andb_comm.
Qed.

Lemma filter_twice_witness :
  exists v1 v12,
    filtered_df sample_table narrow_selection = Ok v1 /\
    filtered_df v1 full_selection = Ok v12 /\
    map label (rows v12) = [2%nat].
Proof.
  destruct (filter_twice sample_table narrow_selection full_selection _
              (filtered_df_ok _ _ sample_table_filterable))
    as [v12 [v2 [v21 [H12 [_ [_ [_ [_ Hr]]]]]]]].
  eexists. exists v12. split; [apply filtered_df_ok, sample_table_filterable|].
  split; [exact H12|]. rewrite Hr. reflexivity.
Defined.

(** ** The sidebar options *)

Lemma distinct_filter (p : cell -> bool) (l : list cell) :
  distinct l -> distinct (filter p l).
Proof.
  unfold distinct. intros H. induction H as [|a l Ha _ IH]; simpl; [constructor|].
  destruct (p a); [|exact IH]. constructor; [|exact IH].
  rewrite Forall_forall in *. intros b Hb. apply Ha.
  apply filter_In in Hb. tauto.
Qed.

Lemma unique_distinct (s : Series) : distinct (unique s).
Proof.
  induction s as [|c s IH]; simpl; [constructor|].
  constructor; [|apply distinct_filter, IH].
  apply Forall_forall. intros d Hd. apply filter_In in Hd. destruct Hd as [_ Hd].
  rewrite cell_eqb_sym. apply negb_true_iff. exact Hd.
Qed.

Lemma unique_options (s : Series) : options_of s (unique s).
Proof.
  split; [apply unique_distinct|]. split; [apply unique_incl | apply unique_member].
Qed.

(** X6.  The options and the defaults of the two multiselects are read
    from the loaded table before the filter runs.  Without a [Customer
    Type] column the script raises there; with it and without a [Payment
    Method] column it raises for the latter.  Otherwise the slider starts
    at the full range from 1 to 5 and each multiselect starts with every
    value of its column selected, each value once, a missing value
    counting as a value. *)
Theorem default_selection_outcome (df : DataFrame) :
  (~ has_column df "Customer Type" ->
   default_selection df = Raise (KeyError "Customer Type")) /\
  (has_column df "Customer Type" -> ~ has_column df "Payment Method" ->
   default_selection df = Raise (KeyError "Payment Method")) /\
  (has_column df "Customer Type" -> has_column df "Payment Method" ->
   exists sel,
     default_selection df = Ok sel /\
     min_rating sel = 1%Q /\ max_rating sel = 5%Q /\
     options_of (column df "Customer Type") (customer_type sel) /\
     options_of (column df "Payment Method") (payment_method sel)).
Proof.
  unfold default_selection. split; [|split].
  - intros H. rewrite (getitem_raise _ _ H). reflexivity.
  - intros Hc Hp. rewrite (getitem_ok _ _ Hc), (getitem_raise _ _ Hp). reflexivity.
  - intros Hc Hp. rewrite (getitem_ok _ _ Hc), (getitem_ok _ _ Hp). cbn [bind].
    eexists. split; [reflexivity|]. cbn [min_rating max_rating customer_type payment_method].
    repeat split; apply unique_options.
Qed.

(** ** The ratings of a view *)

(** The ratings of a view lie in the range of the slider. *)
Lemma view_ratings (df : DataFrame) (sel : selection) (fv : DataFrame) :
  filtered_df df sel = Ok fv ->
  numeric_column fv "Driver Rating" /\
  Forall (fun r => in_range (min_rating sel) (max_rating sel)
                     (cell_at fv "Driver Rating" r)) (rows fv).
Proof.
  intros H. pose proof (filtered_df_inv _ _ _ H) as Hf.
  destruct (filtered_df_rows _ _ _ H) as [Hc Hr]. split.
  - apply (numeric_column_view df); [exact Hc | | apply Hf].
    rewrite Hr. intros r Hin. apply filter_In in Hin. tauto.
  - rewrite Hr. apply Forall_forall. intros r Hin. apply filter_In in Hin.
    unfold cell_at. rewrite Hc. destruct Hin as [_ Hp].
    apply passes_iff in Hp. apply Hp.
Qed.

(** ** Means within the slider range *)

Section SliderFacts.

Local Open Scope Q_scope.

Section SumInvariant.

(** [I k s]: [s] may be the computed sum of [k] elements.  The property
    holds of zero for no element, and is kept by the addition as long as
    no more than [N] elements are involved. *)
Variable I : nat -> Q -> Prop.
Variable N : nat.
Hypothesis I_zero : I 0 0.
Hypothesis I_add :
  forall a b x y, I a x -> I b y -> (a + b <= N)%nat -> I (a + b) (fadd x y).

Lemma accumulate_inv (l : list Q) :
  Forall (I 1) l ->
  forall k res, I k res -> (k + List.length l <= N)%nat ->
  I (k + List.length l) (accumulate res l).
Proof.
  intros H. induction H as [|x l Hx _ IH]; intros k res Hres Hle; simpl in *.
  - rewrite Nat.add_0_r. exact Hres.
  - replace (k + S (List.length l))%nat with ((k + 1) + List.length l)%nat by lia.
    apply IH; [|lia]. apply I_add; [exact Hres | exact Hx | lia].
Qed.

Lemma add_block_inv (k : nat) (r : list Q) :
  Forall (I k) r -> (k + 1 <= N)%nat ->
  forall blk, Forall (I 1) blk -> Forall (I (k + 1)) (add_block r blk).
Proof.
  intros H Hle. induction H as [|x r Hx _ IH]; intros blk Hb; [constructor|].
  destruct blk as [|y blk]; [constructor|]. inversion Hb; subst. simpl.
  constructor; [apply I_add; assumption | apply IH; assumption].
Qed.

Lemma add_block_length (r blk : list Q) :
  List.length blk = List.length r -> List.length (add_block r blk) = List.length r.
Proof.
  revert blk; induction r as [|x r IH]; intros blk H; [reflexivity|].
  destruct blk as [|y blk]; [discriminate|]. simpl in *. f_equal. apply IH. lia.
Qed.

Lemma unrolled_loop_inv (j : nat) :
  forall k r l,
    List.length r = 8%nat -> Forall (I k) r -> Forall (I 1) l ->
    (8 * j <= List.length l)%nat -> (k + j <= N)%nat ->
    List.length (fst (unrolled_loop j r l)) = 8%nat /\
    Forall (I (k + j)) (fst (unrolled_loop j r l)) /\
    Forall (I 1) (snd (unrolled_loop j r l)) /\
    List.length (snd (unrolled_loop j r l)) = (List.length l - 8 * j)%nat.
Proof.
  induction j as [|j IH]; intros k r l Hr Fr Fl Hlen Hle.
  - simpl. rewrite Nat.add_0_r, Nat.sub_0_r. auto.
  - cbn [unrolled_loop].
    assert (Hf : List.length (firstn 8 l) = 8%nat) by (apply firstn_length_le; lia).
    destruct (IH (k + 1)%nat (add_block r (firstn 8 l)) (skipn 8 l))
      as [L [F [T TL]]].
    + rewrite add_block_length; congruence.
    + apply add_block_inv; [exact Fr | lia | apply Forall_firstn; exact Fl].
    + apply Forall_skipn. exact Fl.
    + rewrite length_skipn. lia.
    + lia.
    + split; [exact L|]. split; [|split; [exact T|]].
      * replace (k + S j)%nat with (k + 1 + j)%nat by lia. exact F.
      * rewrite TL, length_skipn. lia.
Qed.

Lemma combine8_inv (k : nat) (r : list Q) :
  List.length r = 8%nat -> Forall (I k) r -> (8 * k <= N)%nat ->
  I (8 * k) (combine8 r).
Proof.
  intros Hlen Hr Hle.
  destruct r as [|r0 [|r1 [|r2 [|r3 [|r4 [|r5 [|r6 [|r7 [|? ?]]]]]]]]]; try discriminate.
  repeat match goal with H : Forall _ (_ :: _) |- _ => inversion H; clear H; subst end.
  unfold combine8.
  replace (8 * k)%nat with (((k + k) + (k + k)) + ((k + k) + (k + k)))%nat by lia.
  repeat (apply I_add; try assumption; try lia).
Qed.

Lemma block_sum_inv (l : list Q) :
  (8 <= List.length l)%nat -> (List.length l <= N)%nat -> Forall (I 1) l ->
  I (List.length l) (block_sum l).
Proof.
  intros H8 HN Fl. unfold block_sum.
  pose proof (Nat.div_mod_eq (List.length l) 8) as Hdm.
  pose proof (Nat.mod_upper_bound (List.length l) 8) as Hmod.
  assert (Hf : List.length (firstn 8 l) = 8%nat) by (apply firstn_length_le; lia).
  destruct (unrolled_loop_inv (List.length l / 8 - 1) 1 (firstn 8 l) (skipn 8 l))
    as [L [F [T TL]]].
  - exact Hf.
  - apply Forall_firstn. exact Fl.
  - apply Forall_skipn. exact Fl.
  - rewrite length_skipn. lia.
  - lia.
  - destruct (unrolled_loop (List.length l / 8 - 1) (firstn 8 l) (skipn 8 l)) as [r tail].
    cbn [fst snd] in *. rewrite length_skipn in TL.
    replace (List.length l)
      with (8 * (1 + (List.length l / 8 - 1)) + List.length tail)%nat at 1 by lia.
    apply accumulate_inv; [exact T | | lia].
    apply combine8_inv; [exact L | exact F | lia].
Qed.

Lemma pairwise_sum_inv (fuel : nat) :
  forall l,
    (List.length l <= fuel)%nat -> (List.length l <= N)%nat -> Forall (I 1) l ->
    I (List.length l) (pairwise_sum fuel l).
Proof.
  induction fuel as [|fuel IH]; intros l Hf HN Fl.
  - destruct l; [|simpl in Hf; lia]. exact I_zero.
  - cbn [pairwise_sum].
    destruct (List.length l <? 8)%nat eqn:E8.
    + apply (accumulate_inv l Fl 0 0 I_zero). lia.
    + apply Nat.ltb_ge in E8.
      destruct (List.length l <=? 128)%nat eqn:E128.
      * apply block_sum_inv; assumption.
      * apply Nat.leb_gt in E128.
        set (n2 := (List.length l / 2 - (List.length l / 2) mod 8)%nat).
        assert (Hn2 : (0 < n2 < List.length l)%nat).
        { unfold n2. pose proof (Nat.mod_upper_bound (List.length l / 2) 8).
          pose proof (Nat.div_mod_eq (List.length l) 2).
          pose proof (Nat.mod_upper_bound (List.length l) 2). lia. }
        assert (L1 : List.length (firstn n2 l) = n2) by (apply firstn_length_le; lia).
        assert (L2 : List.length (skipn n2 l) = (List.length l - n2)%nat)
          by apply length_skipn.
        replace (List.length l)
          with (List.length (firstn n2 l) + List.length (skipn n2 l))%nat at 1 by lia.
        apply I_add; [apply IH | apply IH |]; try lia;
          [apply Forall_firstn | apply Forall_skipn]; exact Fl.
Qed.

Lemma np_sum_inv (l : list Q) :
  (List.length l <= N)%nat -> Forall (I 1) l -> I (List.length l) (np_sum l).
Proof. intros HN Fl. apply pairwise_sum_inv; [lia | exact HN | exact Fl]. Qed.

End SumInvariant.

Section Bounds.

Variables lo hi : Q.
Variable g : Z.
Variable N : nat.
Hypothesis g_min : (-1074 <= g)%Z.
Hypothesis lo_grid : on_grid g lo.
Hypothesis hi_grid : on_grid g hi.
Hypothesis lo_small : inject_Z (Z.of_nat N) * Qabs lo < pow2 (g + 53).
Hypothesis hi_small : inject_Z (Z.of_nat N) * Qabs hi < pow2 (g + 53).

Lemma multiple_on_grid (k : nat) (b : Q) :
  on_grid g b -> on_grid g (inject_Z (Z.of_nat k) * b).
Proof.
  intros [j Hj]. exists (Z.of_nat k * j)%Z. rewrite inject_Z_mult, Hj. ring.
Qed.

Lemma multiple_small (k : nat) (b : Q) :
  (k <= N)%nat -> inject_Z (Z.of_nat N) * Qabs b < pow2 (g + 53) ->
  Qabs (inject_Z (Z.of_nat k) * b) < pow2 (g + 53).
Proof.
  intros Hk Hb. rewrite Qabs_Qmult.
  rewrite (Qabs_pos (inject_Z (Z.of_nat k)))
    by (change 0 with (inject_Z 0); rewrite <- Zle_Qle; lia).
  eapply Qle_lt_trans; [|exact Hb].
  apply Qmult_le_compat_r; [|apply Qabs_nonneg]. rewrite <- Zle_Qle. lia.
Qed.

Lemma sum_between_zero : sum_between lo hi 0 0.
Proof. unfold sum_between. simpl. split; ring_simplify; apply Qle_refl. Qed.

Lemma sum_between_add (a b : nat) (x y : Q) :
  sum_between lo hi a x -> sum_between lo hi b y -> (a + b <= N)%nat ->
  sum_between lo hi (a + b) (fadd x y).
Proof.
  intros [Hx1 Hx2] [Hy1 Hy2] Hle. unfold sum_between, fadd.
  apply (round64_between g); try assumption.
  - apply multiple_on_grid, lo_grid.
  - apply multiple_on_grid, hi_grid.
  - apply multiple_small; assumption.
  - apply multiple_small; assumption.
  - rewrite Nat2Z.inj_add, inject_Z_plus. lra.
  - rewrite Nat2Z.inj_add, inject_Z_plus. lra.
Qed.

Lemma fill_between (s : Series) :
  (1 <= N)%nat -> Forall (in_range lo hi) s ->
  Forall (sum_between lo hi 1) (map fill (map present s)) /\
  count (map present s) = List.length s.
Proof.
  intros HN H. induction H as [|c s [q [-> [H1 H2]]] _ [IH1 IH2]].
  - split; [constructor | reflexivity].
  - split.
    + cbn [map present fill]. constructor; [|exact IH1].
      unfold sum_between. change (inject_Z (Z.of_nat 1)) with 1.
      rewrite !Qmult_1_l.
      apply (round64_between g); try assumption.
      * rewrite <- (Qmult_1_l (Qabs lo)). change 1 with (inject_Z (Z.of_nat 1)) at 1.
        rewrite <- (Qabs_pos (inject_Z (Z.of_nat 1))) by discriminate.
        rewrite <- Qabs_Qmult. apply multiple_small; assumption.
      * rewrite <- (Qmult_1_l (Qabs hi)). change 1 with (inject_Z (Z.of_nat 1)) at 1.
        rewrite <- (Qabs_pos (inject_Z (Z.of_nat 1))) by discriminate.
        rewrite <- Qabs_Qmult. apply multiple_small; assumption.
    + unfold count in *. cbn [map present filter notna List.length]. f_equal. exact IH2.
Qed.

(** The mean of a column of numbers of an interval whose ends are binary64
    values, with multiples that are binary64 values, lies in the
    interval. *)
Lemma nanmean_between (s : Series) :
  s <> [] -> (List.length s <= N)%nat -> (Z.of_nat N < 2 ^ 53)%Z ->
  Forall (in_range lo hi) s ->
  in_range lo hi (nanmean (map present s)).
Proof.
  intros Hne HN H53 Hr.
  assert (H1 : (1 <= N)%nat) by (destruct s; [contradiction | simpl in HN; lia]).
  destruct (fill_between s H1 Hr) as [F Hc].
  unfold nanmean. rewrite Hc.
  destruct (List.length s) as [|n] eqn:En; [destruct s; [contradiction | discriminate]|].
  eexists. split; [reflexivity|].
  pose proof (np_sum_inv (sum_between lo hi) N sum_between_zero sum_between_add
                (map fill (map present s))) as Hs.
  rewrite !length_map, En in Hs. destruct (Hs HN F) as [S1 S2].
  assert (Ef : float_of_nat (S n) == inject_Z (Z.of_nat (S n)))
    by (apply float_of_nat_exact; lia).
  assert (Hpos : 0 < inject_Z (Z.of_nat (S n)))
    by (change 0 with (inject_Z 0); rewrite <- Zlt_Qlt; lia).
  unfold fdiv.
  rewrite (round64_wd _ (np_sum (map fill (map present s)) / inject_Z (Z.of_nat (S n))))
    by (rewrite Ef; reflexivity).
  apply (round64_between g); try assumption.
  - pose proof (multiple_small 1 lo H1 lo_small) as H.
    change (inject_Z (Z.of_nat 1)) with 1 in H. rewrite Qmult_1_l in H. exact H.
  - pose proof (multiple_small 1 hi H1 hi_small) as H.
    change (inject_Z (Z.of_nat 1)) with 1 in H. rewrite Qmult_1_l in H. exact H.
  - apply Qle_shift_div_l; [exact Hpos|]. rewrite Qmult_comm. exact S1.
  - apply Qle_shift_div_r; [exact Hpos|]. rewrite Qmult_comm. exact S2.
Qed.

End Bounds.

End SliderFacts.

Lemma slider_value_grid (q : Q) : slider_value q -> on_grid (-1) q.
Proof. intros [k [_ Hk]]. exists k. exact Hk. Qed.

Lemma slider_value_small (q : Q) (n : nat) :
  slider_value q -> (Z.of_nat n <= 2 ^ 20)%Z ->
  (inject_Z (Z.of_nat n) * Qabs q < pow2 (-1 + 53))%Q.
Proof.
  intros [k [Hk Hq]] Hn.
  assert (Hq5 : (Qabs q <= 5)%Q).
  { rewrite Hq. rewrite Qabs_pos.
    - apply Qle_trans with (inject_Z 10 * (1 # 2))%Q; [|discriminate].
      apply Qmult_le_compat_r; [rewrite <- Zle_Qle; lia | discriminate].
    - apply Qmult_le_0_compat; [|discriminate].
      change 0%Q with (inject_Z 0). rewrite <- Zle_Qle. lia. }
  apply Qle_lt_trans with (inject_Z (2 ^ 20) * 5)%Q; [|reflexivity].
  apply Qmult_le_compat_nonneg.
  - split; [change 0%Q with (inject_Z 0); rewrite <- Zle_Qle; lia|].
    rewrite <- Zle_Qle. exact Hn.
  - split; [apply Qabs_nonneg | exact Hq5].
Qed.

(** X8.  The KPI [Avg. Driver Rating] cannot leave the range chosen on the
    slider.  The slider returns values from 1 to 5 in steps of a half, and
    a sheet has at most [2^20] rows; on every view of at least one row
    that the filter returned for such a range, the KPI is computed without
    an exception and is a number between the two ends of the range,
    whatever binary64 numbers the ratings are: no rounding of the sum or
    of the quotient carries it across an end of the range. *)
Theorem avg_rating_within_slider (df : DataFrame) (sel : selection) (fv : DataFrame) :
  slider_value (min_rating sel) -> slider_value (max_rating sel) ->
  filtered_df df sel = Ok fv ->
  rows fv <> [] ->
  (Z.of_nat (List.length (rows fv)) <= 2 ^ 20)%Z ->
  exists q, avg_rating fv = Ok (Num q) /\
            (min_rating sel <= q)%Q /\ (q <= max_rating sel)%Q.
Proof.
  intros Hlo Hhi H Hne Hlen. destruct (view_ratings _ _ _ H) as [Hn Hr].
  unfold avg_rating. rewrite (column_mean_ok _ _ Hn).
  destruct (nanmean_between (min_rating sel) (max_rating sel) (-1)
              (List.length (rows fv)))
    with (s := column fv "Driver Rating") as [q [E Hq]].
  - lia.
  - apply slider_value_grid, Hlo.
  - apply slider_value_grid, Hhi.
  - apply slider_value_small; assumption.
  - apply slider_value_small; assumption.
  - unfold column. destruct (rows fv); [contradiction | discriminate].
  - unfold column. rewrite length_map. apply Nat.le_refl.
  - lia.
  - unfold column. rewrite Forall_map. exact Hr.
  - exists q. rewrite E. split; [reflexivity | exact Hq].
Qed.

Lemma avg_rating_within_slider_witness :
  exists fv q,
    filtered_df sample_table narrow_selection = Ok fv /\
    avg_rating fv = Ok (Num q) /\ (3 <= q)%Q /\ (q <= 5)%Q.
Proof.
  assert (H3 : slider_value (min_rating narrow_selection))
    by (exists 6%Z; split; [lia | reflexivity]).
  assert (H5 : slider_value (max_rating narrow_selection))
    by (exists 10%Z; split; [lia | reflexivity]).
  pose proof (filtered_df_ok sample_table narrow_selection sample_table_filterable) as Hf.
  destruct (avg_rating_within_slider sample_table narrow_selection _ H3 H5 Hf)
    as [q [Hq Hr]].
  - simpl. discriminate.
  - simpl. lia.
  - eexists. exists q. split; [exact Hf|]. split; [exact Hq | exact Hr].
Defined.

Lemma inject_succ (n : nat) :
  (inject_Z (Z.of_nat (S n)) == 1 + inject_Z (Z.of_nat n))%Q.
Proof.
  rewrite Nat2Z.inj_succ. unfold Z.succ. rewrite inject_Z_plus. ring.
Qed.

Lemma Qsum_bounds (lo hi : Q) (qs : list Q) :
  Forall (fun q => (lo <= q)%Q /\ (q <= hi)%Q) qs ->
  (inject_Z (Z.of_nat (List.length qs)) * lo <= Qsum qs)%Q /\
  (Qsum qs <= inject_Z (Z.of_nat (List.length qs)) * hi)%Q.
Proof.
  intros H. induction H as [|q qs [Hl Hh] _ [IHl IHh]].
  - simpl. split; ring_simplify; apply Qle_refl.
  - cbn [List.length Qsum]. rewrite inject_succ. split; lra.
Qed.

(** The arithmetic mean of numbers of an interval lies in the interval. *)
Lemma mean_bounds (lo hi : Q) (qs : list Q) :
  qs <> [] ->
  Forall (fun q => (lo <= q)%Q /\ (q <= hi)%Q) qs ->
  (lo <= Qsum qs / inject_Z (Z.of_nat (List.length qs)))%Q /\
  (Qsum qs / inject_Z (Z.of_nat (List.length qs)) <= hi)%Q.
Proof.
  intros Hne H. destruct (Qsum_bounds lo hi qs H) as [Hl Hh].
  assert (Hpos : (0 < inject_Z (Z.of_nat (List.length qs)))%Q).
  { destruct qs as [|q qs]; [contradiction|].
    change 0%Q with (inject_Z 0). rewrite <- Zlt_Qlt. simpl List.length. lia. }
  split.
  - apply Qle_shift_div_l; [exact Hpos|]. rewrite Qmult_comm. exact Hl.
  - apply Qle_shift_div_r; [exact Hpos|]. rewrite Qmult_comm. exact Hh.
Qed.

Lemma numbers_in_range (lo hi : Q) (s : Series) :
  Forall (in_range lo hi) s ->
  Forall (fun q => (lo <= q)%Q /\ (q <= hi)%Q) (numbers s) /\
  List.length (numbers s) = List.length s.
Proof.
  intros H. induction H as [|c s [q [-> Hq]] _ [IH1 IH2]]; simpl.
  - split; [constructor | reflexivity].
  - split; [constructor; assumption | f_equal; assumption].
Qed.

Lemma numbers_half_steps (s : Series) :
  Forall half_step s -> Forall (on_grid (-1)) (numbers s).
Proof.
  intros H. induction H as [|c s Hc _ IH]; [constructor|].
  destruct c; simpl; try exact IH. constructor; [apply Hc; reflexivity | exact IH].
Qed.

Lemma Qabs_sum_bound (b : Q) (qs : list Q) :
  Forall (fun q => (Qabs q <= b)%Q) qs ->
  (Qabs_sum qs <= inject_Z (Z.of_nat (List.length qs)) * b)%Q.
Proof.
  intros H. induction H as [|q qs Hq _ IH].
  - simpl. ring_simplify. apply Qle_refl.
  - rewrite Qabs_sum_cons. cbn [List.length]. rewrite inject_succ. lra.
Qed.

(** Ratings between two values of the slider, in steps of a half, at most
    [2^20] of them: their sums are exact. *)
Lemma ratings_exact_sums (lo hi : Q) (s : Series) :
  slider_value lo -> slider_value hi ->
  Forall (in_range lo hi) s -> Forall half_step s ->
  (Z.of_nat (List.length s) <= 2 ^ 20)%Z ->
  exact_sums (numbers s).
Proof.
  intros [kl [Hkl Hlo]] [kh [Hkh Hhi]] Hr Hh Hlen.
  destruct (numbers_in_range lo hi s Hr) as [Hq Hn].
  exists (-1)%Z. split; [lia|]. split; [apply numbers_half_steps; exact Hh|].
  rewrite Hn. split; [|lia].
  apply Qle_lt_trans with (inject_Z (Z.of_nat (List.length (numbers s))) * 5)%Q.
  - apply Qabs_sum_bound. eapply Forall_impl; [|exact Hq].
    intros q [H1 H2]. cbv beta in *.
    assert (H0 : (0 <= q)%Q).
    { eapply Qle_trans; [|exact H1]. rewrite Hlo.
      apply Qmult_le_0_compat; [|discriminate].
      change 0%Q with (inject_Z 0). rewrite <- Zle_Qle. lia. }
    rewrite Qabs_pos by exact H0. eapply Qle_trans; [exact H2|]. rewrite Hhi.
    apply Qle_trans with (inject_Z 10 * (1 # 2))%Q; [|discriminate].
    apply Qmult_le_compat_r; [rewrite <- Zle_Qle; lia | discriminate].
  - rewrite Hn. apply Qle_lt_trans with (inject_Z (2 ^ 20) * 5)%Q; [|reflexivity].
    apply Qmult_le_compat_r; [rewrite <- Zle_Qle; exact Hlen | discriminate].
Qed.

(** The mean of a group of such ratings lies between the two values of
    the slider. *)
Lemma group_mean_between (lo hi : Q) (s : Series) :
  slider_value lo -> slider_value hi -> s <> [] ->
  Forall (in_range lo hi) s -> Forall half_step s ->
  (Z.of_nat (List.length s) <= 2 ^ 20)%Z ->
  in_range lo hi (group_mean s).
Proof.
  intros Hlo Hhi Hne Hr Hh Hlen.
  rewrite (group_mean_exact s (ratings_exact_sums lo hi s Hlo Hhi Hr Hh Hlen)).
  destruct (numbers_in_range lo hi s Hr) as [Hq Hn].
  assert (Hnn : numbers s <> []).
  { intros E. rewrite E in Hn. destruct s; [contradiction | discriminate]. }
  unfold mean64, arithmetic_mean.
  destruct (numbers s) as [|q qs] eqn:Eq; [contradiction|]. rewrite <- Eq in *.
  eexists. split; [reflexivity|].
  destruct (mean_bounds lo hi (numbers s) Hnn Hq) as [M1 M2].
  apply (round64_between (-1)).
  - lia.
  - apply slider_value_grid, Hlo.
  - apply slider_value_grid, Hhi.
  - pose proof (slider_value_small lo 1 Hlo) as H. 
    change (inject_Z (Z.of_nat 1)) with 1%Q in H. rewrite Qmult_1_l in H. apply H. lia.
  - pose proof (slider_value_small hi 1 Hhi) as H. 
    change (inject_Z (Z.of_nat 1)) with 1%Q in H. rewrite Qmult_1_l in H. apply H. lia.
  - exact M1.
  - exact M2.
Qed.

(** X9.  The line of [Average Rating by Date] stays inside the slider
    range as well, where the ratings are recorded in steps of a half.  On
    a view the filter returned for a range of the slider, with timestamps
    or missing values under [Date], ratings in steps of a half and at most
    [2^20] rows, the aggregation cannot raise, since the filter has
    already established that the ratings are numbers, and the mean of
    every date is a number between the two ends of the range. *)
Theorem df_daily_within_slider (df : DataFrame) (sel : selection) (fv : DataFrame) :
  slider_value (min_rating sel) -> slider_value (max_rating sel) ->
  filtered_df df sel = Ok fv ->
  datetime_column fv "Date" ->
  Forall (fun r => half_step (cell_at fv "Driver Rating" r)) (rows fv) ->
  (Z.of_nat (List.length (rows fv)) <= 2 ^ 20)%Z ->
  exists out,
    df_daily fv = Ok out /\
    forall r, In r (rows out) ->
      in_range (min_rating sel) (max_rating sel) (cell_at out "Driver Rating" r).
Proof.
  intros Hlo Hhi H Hd Hh Hlen. destruct (view_ratings _ _ _ H) as [Hn Hr].
  eexists. split; [apply groupby_mean_ok; try assumption; discriminate|].
  cbn [rows]. intros r Hin. apply range_rows_In, in_map_iff in Hin.
  destruct Hin as [k [Hk Hin]].
  change (cell_at _ "Driver Rating" r) with (iat 1 r). unfold iat. rewrite <- Hk.
  cbn [nth].
  assert (Hdate : exists t, k = Date t /\ In (Date t) (column fv "Date")).
  { assert (Hdd : Forall is_date (unique (dropna (column fv "Date")))).
    { apply datetime_dropna. unfold column. rewrite Forall_map. apply Hd. }
    rewrite Forall_forall in Hdd.
    destruct (Hdd k (Permutation_in _ (sort_keys_perm _) Hin)) as [t ->].
    exists t. split; [reflexivity|]. apply group_keys_In. exact Hin. }
  destruct Hdate as [t [-> Ht]].
  apply group_mean_between; try assumption.
  - unfold column in Ht. apply in_map_iff in Ht. destruct Ht as [x [Hx Hxin]].
    assert (Hf : In x (filter (fun r0 => cell_eqb (cell_at fv "Date" r0) (Date t)) (rows fv))).
    { apply filter_In. split; [exact Hxin|]. rewrite Hx. apply cell_eqb_refl. }
    intros E. apply map_eq_nil in E. rewrite E in Hf. exact Hf.
  - rewrite Forall_map. apply Forall_forall. intros x Hx. apply filter_In in Hx.
    rewrite Forall_forall in Hr. apply Hr, Hx.
  - rewrite Forall_map. apply Forall_forall. intros x Hx. apply filter_In in Hx.
    rewrite Forall_forall in Hh. apply Hh, Hx.
  - rewrite length_map.
    pose proof (filter_length_le (fun r0 => cell_eqb (cell_at fv "Date" r0) (Date t))
                  (rows fv)). lia.
Qed.

Lemma df_daily_within_slider_witness :
  exists fv out,
    filtered_df sample_table full_selection = Ok fv /\
    df_daily fv = Ok out /\
    Forall (fun r => in_range 1 5 (cell_at out "Driver Rating" r)) (rows out).
Proof.
  assert (H1 : slider_value (min_rating full_selection))
    by (exists 2%Z; split; [lia | reflexivity]).
  assert (H5 : slider_value (max_rating full_selection))
    by (exists 10%Z; split; [lia | reflexivity]).
  pose proof (filtered_df_ok sample_table full_selection sample_table_filterable) as Hf.
  assert (Hd : datetime_column
                 (mkFrame (columns sample_table)
                    (filter (passes sample_table full_selection) (rows sample_table)))
                 "Date").
  { unfold datetime_column, has_column. simpl. split; [tauto | repeat constructor]. }
  destruct (df_daily_within_slider sample_table full_selection _ H1 H5 Hf Hd)
    as [out [Ho Hr]].
  - simpl. repeat constructor; intros q E; inversion E; subst q.
    + exists 8%Z. reflexivity.
    + exists 4%Z. reflexivity.
    + exists 9%Z. reflexivity.
  - simpl. lia.
  - eexists. exists out. split; [exact Hf|].
    split; [exact Ho|]. apply Forall_forall. exact Hr.
Defined.
(** ** The shape of the aggregations *)

Lemma range_rows_length (b : list (list cell)) (start : nat) :
  List.length (range_rows start b) = List.length b.
Proof.
  rewrite <- (length_map label), range_rows_label. apply length_seq.
Qed.

Lemma unique_length (s : Series) : (List.length (unique s) <= List.length s)%nat.
Proof.
  induction s as [|c s IH]; simpl; [lia|].
  pose proof (filter_length_le (fun d => negb (cell_eqb d c)) (unique s)). lia.
Qed.

Lemma groupby_mean_shape (fv : DataFrame) (col : string) :
  datetime_column fv "Date" -> numeric_column fv col -> col <> "Date" ->
  exists out,
    groupby_mean fv "Date" col = Ok out /\
    columns out = ["Date"; col] /\
    map label (rows out) = seq 0 (List.length (rows out)) /\
    Forall (fun r => List.length (cells r) = 2%nat) (rows out) /\
    List.length (rows out) = List.length (unique (dropna (column fv "Date"))) /\
    (List.length (rows out) <= List.length (rows fv))%nat.
Proof.
  intros Hd Hc Hne. eexists. split; [apply groupby_mean_ok; assumption|].
  cbn [columns rows]. split; [reflexivity|].
  assert (Hlen : forall m : cell -> cell,
             List.length (range_rows 0 (map (fun k => [k; m k])
                                          (sort_keys (unique (dropna (column fv "Date"))))))
             = List.length (unique (dropna (column fv "Date")))).
  { intros m. rewrite range_rows_length, length_map.
    apply Permutation_length, sort_keys_perm. }
  split; [|split; [|split]].
  - rewrite range_rows_label, range_rows_length. reflexivity.
  - apply Forall_forall. intros r Hr. apply range_rows_In, in_map_iff in Hr.
    destruct Hr as [k [<- _]]. reflexivity.
  - apply (Hlen (fun k => group_mean
                            (map (cell_at fv col)
                               (filter (fun r => cell_eqb (cell_at fv "Date" r) k)
                                       (rows fv))))).
  - rewrite (Hlen (fun k => group_mean
                            (map (cell_at fv col)
                               (filter (fun r => cell_eqb (cell_at fv "Date" r) k)
                                       (rows fv))))).
    eapply Nat.le_trans; [apply unique_length|].
    unfold dropna. eapply Nat.le_trans; [apply filter_length_le|].
    unfold column. rewrite length_map. apply Nat.le_refl.
Qed.

(** X10.  Each aggregation by date returns a fresh two-column table, the
    date and the mean, whose rows are labelled 0, 1, 2, ... anew.  It has
    as many rows as the view has distinct dates, rows without a date not
    counted, hence never more rows than the view and none on a view
    without rows. *)
Theorem aggregation_shape (fv : DataFrame) :
  datetime_column fv "Date" ->
  numeric_column fv "Driver Rating" ->
  numeric_column fv "Delivery Time(Minutes)" ->
  (exists out,
      df_daily fv = Ok out /\
      columns out = ["Date"; "Driver Rating"] /\
      map label (rows out) = seq 0 (List.length (rows out)) /\
      Forall (fun r => List.length (cells r) = 2%nat) (rows out) /\
      List.length (rows out) = List.length (unique (dropna (column fv "Date"))) /\
      (List.length (rows out) <= List.length (rows fv))%nat) /\
  (exists out,
      df_time fv = Ok out /\
      columns out = ["Date"; "Delivery Time(Minutes)"] /\
      map label (rows out) = seq 0 (List.length (rows out)) /\
      Forall (fun r => List.length (cells r) = 2%nat) (rows out) /\
      List.length (rows out) = List.length (unique (dropna (column fv "Date"))) /\
      (List.length (rows out) <= List.length (rows fv))%nat).
Proof.
  intros Hd Hr Ht. split; apply groupby_mean_shape; try assumption; discriminate.
Qed.

Lemma aggregation_shape_witness :
  exists out,
    df_daily sample_table = Ok out /\
    map label (rows out) = [0%nat; 1%nat] /\
    (List.length (rows out) <= List.length (rows sample_table))%nat.
Proof.
  destruct (aggregation_shape sample_table
              sample_table_dates sample_table_ratings sample_table_times)
    as [[out [Ho [_ [Hl [_ [_ Hle]]]]]] _].
  exists out. split; [exact Ho|]. split; [|exact Hle].
  vm_compute in Ho. inversion Ho. reflexivity.
Defined.

(** ** The charts and the panels that draw them *)

Lemma px_column_ok (df : DataFrame) (arg : option string) :
  arg_ok df arg -> exists s, px_column df arg = Ok s.
Proof.
  destruct arg as [name|]; simpl; intros H; [|eexists; reflexivity].
  unfold has_column in H. rewrite get_loc_In in H.
  destruct (get_loc name (columns df)); [eexists; reflexivity | exfalso; auto].
Qed.

Lemma px_column_missing (df : DataFrame) (name : string) :
  ~ has_column df name -> px_column df (Some name) = Raise ValueError.
Proof.
  intros H. unfold px_column. unfold has_column in H. rewrite get_loc_In in H.
  destruct (get_loc name (columns df)); [exfalso; apply H; discriminate | reflexivity].
Qed.

Lemma px_column_cases (df : DataFrame) (arg : option string) :
  (exists s, px_column df arg = Ok s) \/ px_column df arg = Raise ValueError.
Proof.
  destruct arg as [name|]; simpl; [|left; eexists; reflexivity].
  destruct (get_loc name (columns df)); [left; eexists; reflexivity | right; reflexivity].
Qed.

Lemma px_ok (k : chart_kind) (df : DataFrame) (x y color : option string)
    (bins : option nat) (cds : list string) :
  arg_ok df x -> arg_ok df y -> arg_ok df color ->
  exists fig, px k df x y color bins cds = Ok fig.
Proof.
  intros Hx Hy Hc. unfold px.
  destruct (px_column_ok _ _ Hx) as [xs ->], (px_column_ok _ _ Hy) as [ys ->],
           (px_column_ok _ _ Hc) as [cs ->].
  eexists. reflexivity.
Qed.

Lemma px_missing_y (k : chart_kind) (df : DataFrame) (x color : option string)
    (name : string) (bins : option nat) (cds : list string) :
  arg_ok df x -> ~ has_column df name ->
  px k df x (Some name) color bins cds = Raise ValueError.
Proof.
  intros Hx Hy. unfold px. destruct (px_column_ok _ _ Hx) as [xs ->]. cbn [bind].
  rewrite (px_column_missing _ _ Hy). reflexivity.
Qed.

(** A chart constructor given the label of a column the frame lacks,
    under any of its three column arguments, raises [ValueError]. *)
Lemma px_missing (k : chart_kind) (df : DataFrame) (x y color : option string)
    (name : string) (bins : option nat) (cds : list string) :
  ~ has_column df name ->
  x = Some name \/ y = Some name \/ color = Some name ->
  px k df x y color bins cds = Raise ValueError.
Proof.
  intros Hn H. unfold px.
  destruct (px_column_cases df x) as [[xs Hx]|Hx]; rewrite Hx; [|reflexivity]. cbn [bind].
  destruct (px_column_cases df y) as [[ys Hy]|Hy]; rewrite Hy; [|reflexivity]. cbn [bind].
  destruct (px_column_cases df color) as [[cs Hc]|Hc]; rewrite Hc; [|reflexivity].
  exfalso. destruct H as [-> | [-> | ->]];
    rewrite (px_column_missing _ _ Hn) in *; discriminate.
Qed.

Lemma chart_panel_returns title note k x y color bins cds (fv : DataFrame) (fig : figure) :
  px k fv x y color bins cds = Ok fig ->
  returns (chart_panel title note k x y color bins cds) fv
    (subheader title ::
     match note with Some t => [markdown t] | None => [] end ++ [plotly_chart fig]).
Proof.
  intros H pg. unfold chart_panel, st_bind, st_write, read, lift, st_ret.
  destruct note; cbn [st_filtered_df st_page]; rewrite H; rewrite <- ?app_assoc; reflexivity.
Qed.

Lemma chart_panel_raises title note k x y color bins cds (fv : DataFrame) (e : error) :
  px k fv x y color bins cds = Raise e ->
  raises (chart_panel title note k x y color bins cds) fv e
    (subheader title :: match note with Some t => [markdown t] | None => [] end).
Proof.
  intros H pg. unfold chart_panel, st_bind, st_write, read, lift, st_ret.
  destruct note; cbn [st_filtered_df st_page]; rewrite H; rewrite <- ?app_assoc;
    rewrite ?app_nil_r; reflexivity.
Qed.

Lemma chart_panel_late_note_raises title note k x y color (fv : DataFrame) (e : error) :
  px k fv x y color None [] = Raise e ->
  raises (chart_panel_late_note title note k x y color) fv e [subheader title].
Proof.
  intros H pg. unfold chart_panel_late_note, st_bind, st_write, read, lift.
  cbn [st_filtered_df st_page]. rewrite H. reflexivity.
Qed.

Lemma returns_then {B : Type} (p : St unit) (k : St B) (fv : DataFrame)
    (out pg : list element) :
  returns p fv out -> (p >> k) (mkSession fv pg) = k (mkSession fv (pg ++ out)).
Proof. intros H. unfold st_bind. rewrite H. reflexivity. Qed.

Lemma raises_then {B : Type} (p : St unit) (k : St B) (fv : DataFrame) (e : error)
    (out pg : list element) :
  raises p fv e out -> (p >> k) (mkSession fv pg) = (Raise e, mkSession fv (pg ++ out)).
Proof. intros H. unfold st_bind. rewrite H. reflexivity. Qed.

(** X14.  A column a chart needs and the view lacks is reported by the
    first chart that needs it, as the [ValueError] of the chart
    constructor.  On every view the filter returned the first chart is
    drawn, since the filter has found the rating column; if the view has
    no [Order Value] column the run ends in the second panel, after its
    heading and its note, and nothing else is shown. *)
Theorem render_missing_order_value
    (select_dtypes_number corr : DataFrame -> DataFrame)
    (describe : DataFrame -> result DataFrame)
    (df : DataFrame) (sel : selection) (fv : DataFrame) (pg : list element) :
  filtered_df df sel = Ok fv ->
  ~ has_column fv "Order Value" ->
  exists fig,
    render select_dtypes_number corr describe (mkSession fv pg)
    = (Raise ValueError,
       mkSession fv
         (pg ++ [subheader "1. Overall Driver Rating Distribution";
                 markdown "Shows the count of deliveries by driver ratings.";
                 plotly_chart fig;
                 subheader "2. Average Order Value by Driver Rating";
                 markdown "Analyzes whether higher-rated drivers get more valuable orders."])).
Proof.
  intros H Hno. destruct (view_ratings _ _ _ H) as [[Hc _] _].
  destruct (px_ok histogram fv (Some "Driver Rating") None None (Some 10%nat) ["#4CAF50"]
              Hc I I) as [fig Hfig].
  exists fig. unfold render, panels, tab1. cbn [app sequence].
  rewrite (returns_then panel1 _ fv _ pg (chart_panel_returns _ _ _ _ _ _ _ _ _ _ Hfig)).
  rewrite (raises_then panel2 _ fv ValueError _ _
             (chart_panel_raises _ _ _ _ _ _ _ _ _ _
                (px_missing_y box fv (Some "Driver Rating") (Some "Driver Rating")
                   "Order Value" None [] Hc Hno))).
  rewrite <- app_assoc. reflexivity.
Qed.

Lemma render_missing_order_value_witness :
  exists fv s',
    filtered_df (mkFrame (columns text_rating_table) []) full_selection = Ok fv /\
    render (fun d => d) (fun d => d) (fun d => Ok d) (mkSession fv [])
    = (Raise ValueError, s') /\
    List.length (st_page s') = 5%nat.
Proof.
  assert (Hf : filtered_df (mkFrame (columns text_rating_table) []) full_selection
               = Ok (mkFrame (columns text_rating_table) [])) by reflexivity.
  destruct (render_missing_order_value (fun d => d) (fun d => d) (fun d => Ok d)
              _ _ _ [] Hf) as [fig Hfig].
  - unfold has_column. simpl. intros [E|[E|[E|[]]]]; discriminate E.
  - eexists. eexists. split; [exact Hf|]. split; [exact Hfig | reflexivity].
Defined.

(** ** The loader and the columns the script names *)

(** C4, amended.  The loader raises [FileNotFoundError] when there is no
    file at the path and [ValueError] when the workbook has no sheet
    [Sheet1].  It does not look at the number of columns: a sheet of any
    width is loaded, into a table of as many columns as the sheet has, up
    to eight.  A column the script names and the table lacks is reported
    where the script first asks for it, and not by one kind of error.
    Without [Customer Type], and with it without [Payment Method], the run
    ends with a [KeyError] where the sidebar reads its options; with both
    and without [Driver Rating] it ends with a [KeyError] in the filter;
    in all three cases nothing has been put on the page.  The four other
    columns are asked for by charts: on a view without [Order Value],
    [Delivery Time(Minutes)], [Delivery Distance (KM)] or [Date], the
    panels 2, 3, 10 and 12 respectively raise the [ValueError] of the
    chart constructor, after their heading and, for the panels 2 and 3,
    their note. *)
Theorem load_data_outcomes
    (select_dtypes_number corr : DataFrame -> DataFrame)
    (describe : DataFrame -> result DataFrame) (fs : filesystem) :
  match fs data_path with
  | None => load_data fs = Raise FileNotFoundError
  | Some wb =>
      match find_sheet "Sheet1" wb with
      | None => load_data fs = Raise ValueError
      | Some sh =>
          exists df,
            load_data fs = Ok df /\
            List.length (columns df) = Nat.min 8 (List.length (header sh)) /\
            (~ has_column df "Customer Type" ->
             forall sel, run select_dtypes_number corr describe fs sel
                         = (Raise (KeyError "Customer Type"), [])) /\
            (has_column df "Customer Type" -> ~ has_column df "Payment Method" ->
             forall sel, run select_dtypes_number corr describe fs sel
                         = (Raise (KeyError "Payment Method"), [])) /\
            (has_column df "Customer Type" -> has_column df "Payment Method" ->
             ~ has_column df "Driver Rating" ->
             forall sel, run select_dtypes_number corr describe fs sel
                         = (Raise (KeyError "Driver Rating"), []))
      end
  end /\
  (forall fv, ~ has_column fv "Order Value" ->
     raises panel2 fv ValueError
       [subheader "2. Average Order Value by Driver Rating";
        markdown "Analyzes whether higher-rated drivers get more valuable orders."]) /\
  (forall fv, ~ has_column fv "Delivery Time(Minutes)" ->
     raises panel3 fv ValueError
       [subheader "3. Average Delivery Time by Driver Rating";
        markdown "Checks if better-rated drivers deliver faster."]) /\
  (forall fv, ~ has_column fv "Delivery Distance (KM)" ->
     raises panel10 fv ValueError [subheader "10. Driver Rating vs Distance"]) /\
  (forall fv, ~ has_column fv "Date" ->
     raises panel12 fv ValueError [subheader "12. Orders Over Time"]).
Proof.
  split; [|split; [|split; [|split]]].
  - unfold run, load_data, read_excel.
    destruct (fs data_path) as [wb|]; [|reflexivity].
    destruct (find_sheet "Sheet1" wb) as [sh|]; [|reflexivity].
    eexists. split; [reflexivity|]. cbn [bind].
    set (df := iloc_cols (mkFrame (header sh) (range_rows 0 (body sh))) 8).
    split; [apply length_firstn|]. split; [|split].
    + intros Hn sel. unfold default_selection.
      rewrite (getitem_raise _ _ Hn). reflexivity.
    + intros Hc Hn sel. unfold default_selection.
      rewrite (getitem_ok _ _ Hc), (getitem_raise _ _ Hn). reflexivity.
    + intros Hc Hp Hn sel. unfold default_selection.
      rewrite (getitem_ok _ _ Hc), (getitem_ok _ _ Hp). cbn [bind].
      rewrite (filtered_df_no_rating _ _ Hn). reflexivity.
  - intros fv Hn. apply chart_panel_raises. apply (px_missing _ _ _ _ _ _ _ _ Hn). auto.
  - intros fv Hn. apply chart_panel_raises. apply (px_missing _ _ _ _ _ _ _ _ Hn). auto.
  - intros fv Hn. apply (chart_panel_raises _ None).
    apply (px_missing _ _ _ _ _ _ _ _ Hn). auto.
  - intros fv Hn. apply chart_panel_late_note_raises.
    apply (px_missing _ _ _ _ _ _ _ _ Hn). auto.
Qed.

